(** * Jobly: the jobs resource (routes/jobs.js)

    A shallow embedding of the Express router of [src/routes/jobs.js]: the
    five handlers are written as programs over JavaScript values that
    interact with their collaborators (the jsonschema engine and the Job
    model) through events, so that which collaborator is called, with what
    argument, and what is handed to [res] or to [next] can be read off the
    program.  Collaborators whose code is not part of the sources are
    modelled further down, each from the specification. *)

From Stdlib Require Import ZArith QArith String Ascii List Lia DecimalString.
From Stdlib Require Import PrimFloat FloatOps SpecFloat.
From stdpp Require Import gmap strings sorting.

Local Open Scope string_scope.
Local Open Scope Z_scope.

(** ** JavaScript values *)

Module JS.

(** The error classes that occur: the ones of [expressError.js] named by the
    handlers and the specification, and the built-in ones the runtime raises. *)
Inductive error_class : Type :=
| BadRequestError | UnauthorizedError | NotFoundError
| ReferenceError | TypeError | Error.

(** A Number is an IEEE 754 binary64, an object a finite map from property
    names to values.  Function values are not represented: no handler stores
    or receives one in the data it inspects. *)
#[warnings="-register-all"]
Inductive value : Type :=
| VUndefined
| VNull
| VBool (b : bool)
| VNum (n : float)
| VStr (s : string)
| VArr (elems : list value)
| VObj (props : gmap string value)
| VError (cls : error_class) (message : value).

(** The result of evaluating an expression or a statement list. *)
Inductive completion (A : Type) : Type :=
| Normal (a : A)
| Throw (e : value).
Arguments Normal {A} a.
Arguments Throw {A} e.

Definition type_error (what : string) : value := VError TypeError (VStr what).

Definition is_undefined (v : value) : bool :=
  match v with VUndefined => true | _ => false end.

(** [ToBoolean] of ECMAScript. *)
Definition ToBoolean (v : value) : bool :=
  match v with
  | VUndefined | VNull => false
  | VBool b => b
  | VNum n => negb (PrimFloat.eqb n 0%float || negb (PrimFloat.eqb n n))
  | VStr s => negb (String.eqb s "")
  | VArr _ | VObj _ | VError _ _ => true
  end.

(** [o.p] for the property names the handlers read ([valid], [validate],
    [errors], [stack], [minSalary], [hasEquity], [id]): none of them lives on
    a built-in prototype, so an own-property lookup decides.  Of an error
    object only [message] is represented. *)
Definition member (o : value) (p : string) : completion value :=
  match o with
  | VUndefined | VNull =>
      Throw (type_error ("Cannot read properties of undefined (reading '" ++ p ++ "')"))
  | VObj props => Normal (default VUndefined (props !! p))
  | VError _ msg => Normal (if String.eqb p "message" then msg else VUndefined)
  | _ => Normal VUndefined
  end.

(** [o.p = v] in strict mode (the file starts with "use strict"): a plain
    object gets the property; undefined, null and the primitives throw.  The
    handlers assign to the query object only; arrays and error objects, which
    cannot hold an extra property in this representation, are never the
    target and are refused like the primitives. *)
Definition set_member (o : value) (p : string) (v : value) : completion value :=
  match o with
  | VObj props => Normal (VObj (<[p := v]> props))
  | _ => Throw (type_error ("Cannot set property '" ++ p ++ "'"))
  end.

(** [a === "s"] against a string literal. *)
Definition strict_eq_str (a : value) (s : string) : bool :=
  match a with VStr t => String.eqb t s | _ => false end.

Fixpoint map_completion {A B : Type} (f : A -> completion B) (l : list A)
  : completion (list B) :=
  match l with
  | [] => Normal []
  | x :: l' =>
      match f x with
      | Throw e => Throw e
      | Normal y =>
          match map_completion f l' with
          | Throw e => Throw e
          | Normal ys => Normal (y :: ys)
          end
      end
  end.

(** [a.map(f)]: defined on arrays; on anything else the call is a TypeError
    (there is no [map] to call). *)
Definition array_map (f : value -> completion value) (a : value) : completion value :=
  match a with
  | VArr elems =>
      match map_completion f elems with
      | Normal l => Normal (VArr l)
      | Throw e => Throw e
      end
  | _ => Throw (type_error "map is not a function")
  end.

End JS.
Import JS.

(** ** Conversions of the runtime *)

(** What the runtime brings for primitives: the Number a string denotes
    (StringToNumber), the text of a Number (Number::toString), and the [name]
    an error object of each class carries. *)
Record runtime : Type := {
  StringToNumber : string -> float;
  NumberToString : float -> string;
  ErrorName : error_class -> string
}.

Definition cannot_convert : value :=
  type_error "Cannot convert object to primitive value".

(** [Array.prototype.join] with the separator ",", over the texts of the
    elements. *)
Fixpoint join (l : list (completion string)) : completion string :=
  match l with
  | [] => Normal ""
  | [c] => c
  | c :: l' =>
      match c with
      | Throw e => Throw e
      | Normal s =>
          match join l' with
          | Throw e => Throw e
          | Normal t => Normal (s ++ "," ++ t)
          end
      end
  end.

(** [ToString] of ECMAScript.  An object goes through OrdinaryToPrimitive:
    an array through [Array.prototype.toString], which joins the texts of its
    elements (the empty text for undefined and null); a plain object through
    [Object.prototype.toString], unless it has an own property [toString]:
    no value represented here is callable, so that property hides the
    inherited method, [valueOf] returns the object itself, and the conversion
    throws a TypeError; an error object through [Error.prototype.toString]. *)
Fixpoint ToString (rt : runtime) (v : value) : completion string :=
  match v with
  | VUndefined => Normal "undefined"
  | VNull => Normal "null"
  | VBool b => Normal (if b then "true" else "false")
  | VNum n => Normal (NumberToString rt n)
  | VStr s => Normal s
  | VArr elems =>
      join (List.map (fun e => match e with
                               | VUndefined | VNull => Normal ""
                               | _ => ToString rt e
                               end) elems)
  | VObj props =>
      match props !! "toString" with
      | Some _ => Throw cannot_convert
      | None => Normal "[object Object]"
      end
  | VError cls msg =>
      match (match msg with VUndefined => Normal "" | _ => ToString rt msg end) with
      | Throw e => Throw e
      | Normal m =>
          let name := ErrorName rt cls in
          Normal (if String.eqb name "" then m
                  else if String.eqb m "" then name
                  else name ++ ": " ++ m)
      end
  end.

(** [ToNumber] of ECMAScript, which is what unary plus applies: total on the
    primitives; an object is first made a primitive, which is its text as
    above (its [valueOf] returns the object itself), and that can throw. *)
Definition ToNumber (rt : runtime) (v : value) : completion float :=
  match v with
  | VUndefined => Normal PrimFloat.nan
  | VNull => Normal 0%float
  | VBool b => Normal (if b then 1%float else 0%float)
  | VNum n => Normal n
  | VStr s => Normal (StringToNumber rt s)
  | VArr _ | VObj _ | VError _ _ =>
      match ToString rt v with
      | Normal s => Normal (StringToNumber rt s)
      | Throw e => Throw e
      end
  end.

(** ** Interaction with the collaborators *)

Inductive schema : Type := jobNewSchema | jobUpdateSchema | jobSearchSchema.

(** One event per call that leaves the module. *)
Inductive event : Type :=
| jsonschema_validate (instance : value) (sch : schema)
| Job_create (data : value)
| Job_findAll (searchFilters : value)
| Job_get (id : value)
| Job_update (id : value) (data : value)
| Job_remove (id : value).

(** A program performs events and continues with what the collaborator
    answered: a value, or a thrown value (for an awaited promise, its
    rejection). *)
Inductive prog (A : Type) : Type :=
| Ret (a : A)
| Vis (e : event) (k : completion value -> prog A).
Arguments Ret {A} a.
Arguments Vis {A} e k.

Fixpoint pbind {A B : Type} (m : prog A) (f : A -> prog B) : prog B :=
  match m with
  | Ret a => f a
  | Vis e k => Vis e (fun r => pbind (k r) f)
  end.

(** Statements: programs that end normally or by throwing. *)
Definition js (A : Type) : Type := prog (completion A).

Definition ret {A : Type} (a : A) : js A := Ret (Normal a).
Definition throw {A : Type} (e : value) : js A := Ret (Throw e).
Definition lift {A : Type} (c : completion A) : js A := Ret c.
Definition call (e : event) : js value := Vis e (fun r => Ret r).

Definition jbind {A B : Type} (m : js A) (f : A -> js B) : js B :=
  pbind m (fun c => match c with Normal a => f a | Throw e => Ret (Throw e) end).

(** [try { body } catch (error) { handler }] *)
Definition try_catch {A : Type} (body : js A) (handler : value -> js A) : js A :=
  pbind body (fun c => match c with Normal a => Ret (Normal a) | Throw e => handler e end).

Declare Scope js_scope.
Delimit Scope js_scope with js.
Notation "'let*' x ':=' e 'in' k" := (jbind e (fun x => k))
  (at level 10, x name, e at level 100, k at level 200) : js_scope.
Local Open Scope js_scope.

(** ** Requests, responses and scopes *)

Inductive method : Type := GET | POST | PATCH | DELETE.

(** The request object as the handlers see it.  [isAdmin] is the decision of
    the authentication collaborator for this request. *)
Record request : Type := {
  req_method : method;
  req_path : list string;          (* segments below the mount point /jobs *)
  query : gmap string value;
  body : value;
  params : gmap string value;
  isAdmin : bool
}.

(** What a middleware or handler did with [res] and [next]. *)
Inductive outcome : Type :=
| Responded (status : Z) (payload : value)   (* res.status(status).json(payload) *)
| Forwarded (err : value)                    (* next(err) *)
| Continued.                                 (* next() *)

(** Express calls every function of a route with [(req, res, next)]; what a
    name denotes inside the function depends on the parameters it declares. *)
Inductive binding : Type := Breq (r : request) | Bres | Bnext.

Definition scope : Type := list (string * binding).

Definition bind_params (formals : list string) (r : request) : scope :=
  combine formals [Breq r; Bres; Bnext].

(** Resolving an identifier: the parameters, then nothing else (the module
    declares no [req], [res] or [next], and neither does the global object). *)
Fixpoint ident (sc : scope) (x : string) : completion binding :=
  match sc with
  | [] => Throw (VError ReferenceError (VStr (x ++ " is not defined")))
  | (y, b) :: sc' => if String.eqb x y then Normal b else ident sc' x
  end.

(** [b.p] for [p] among [body], [query], [params]. *)
Definition bmember (b : binding) (p : string) : value :=
  match b with
  | Breq r =>
      if String.eqb p "body" then body r
      else if String.eqb p "query" then VObj (query r)
      else if String.eqb p "params" then VObj (params r)
      else VUndefined
  | Bres | Bnext => VUndefined
  end.

(** [b.status(s).json(payload)], [b.json(payload)] and [b(err)]. *)
Definition res_status_json (b : binding) (s : Z) (payload : value) : completion outcome :=
  match b with
  | Bres => Normal (Responded s payload)
  | _ => Throw (type_error "status is not a function")
  end.

Definition res_json (b : binding) (payload : value) : completion outcome :=
  match b with
  | Bres => Normal (Responded 200 payload)
  | _ => Throw (type_error "json is not a function")
  end.

Definition call_next (b : binding) (err : value) : completion outcome :=
  match b with
  | Bnext => Normal (Forwarded err)
  | _ => Throw (type_error "next is not a function")
  end.

Record jsfun : Type := {
  formals : list string;
  is_async : bool;
  fbody : scope -> js outcome
}.

Definition invoke (f : jsfun) (r : request) : js outcome :=
  fbody f (bind_params (formals f) r).

(** ** routes/jobs.js *)

Module Routes.
Section Handlers.

(** Unary plus is [ToNumber] over the runtime [rt]. *)
Variable rt : runtime.

(** [router.post("/", ensureAdmin, async function (req, res, next) {...})] *)
Definition post_root : jsfun := {|
  formals := ["req"; "res"; "next"];
  is_async := true;
  fbody := fun sc =>
    try_catch
      (let* req := lift (ident sc "req") in
       let* validator := call (jsonschema_validate (bmember req "body") jobNewSchema) in
       let* valid := lift (member validator "valid") in
       let* _ := (if negb (ToBoolean valid) then
          let* errs := lift (member validator "errors") in
          let* errors := lift (array_map (fun e => member e "stack") errs) in
          throw (VError BadRequestError errors)
        else ret tt) in
       let* req := lift (ident sc "req") in
       let* job := call (Job_create (bmember req "body")) in
       let* res := lift (ident sc "res") in
       lift (res_status_json res 201 (VObj {[ "job" := job ]})))
      (fun error =>
         let* next := lift (ident sc "next") in
         lift (call_next next error))
|}.

(** Lines 54-58: the query object is coerced in place, outside the [try];
    unary plus can throw there. *)
Definition coerce_query (q : value) : completion value :=
  match member q "minSalary" with
  | Throw e => Throw e
  | Normal m =>
      match (if negb (is_undefined m)
             then match ToNumber rt m with
                  | Throw e => Throw e
                  | Normal n => set_member q "minSalary" (VNum n)
                  end
             else Normal q) with
      | Throw e => Throw e
      | Normal q1 =>
          match member q1 "hasEquity" with
          | Throw e => Throw e
          | Normal h => set_member q1 "hasEquity" (VBool (strict_eq_str h "true"))
          end
      end
  end.

(** [router.get("/", async function (req, res, next) {...})] *)
Definition get_root : jsfun := {|
  formals := ["req"; "res"; "next"];
  is_async := true;
  fbody := fun sc =>
    let* req := lift (ident sc "req") in
    let* q := lift (coerce_query (bmember req "query")) in
    try_catch
      (let* validator := call (jsonschema_validate q jobSearchSchema) in
       let* validate := lift (member validator "validate") in
       let* _ := (if negb (ToBoolean validate) then
          let* errs := lift (member validator "errors") in
          let* errors := lift (array_map (fun e => member e "stack") errs) in
          throw (VError BadRequestError errors)
        else ret tt) in
       let* jobs := call (Job_findAll q) in
       let* res := lift (ident sc "res") in
       lift (res_json res (VObj {[ "jobs" := jobs ]})))
      (fun error =>
         let* next := lift (ident sc "next") in
         lift (call_next next error))
|}.

(** [router.get("/:id", async function (req, res, next) {...})] *)
Definition get_id : jsfun := {|
  formals := ["req"; "res"; "next"];
  is_async := true;
  fbody := fun sc =>
    try_catch
      (let* req := lift (ident sc "req") in
       let* id := lift (member (bmember req "params") "id") in
       let* job := call (Job_get id) in
       let* res := lift (ident sc "res") in
       lift (res_json res (VObj {[ "job" := job ]})))
      (fun error =>
         let* next := lift (ident sc "next") in
         lift (call_next next error))
|}.

(** [router.patch("/:id", ensureAdmin, async function () {...})]: the function
    declares no parameter. *)
Definition patch_id : jsfun := {|
  formals := [];
  is_async := true;
  fbody := fun sc =>
    try_catch
      (let* req := lift (ident sc "req") in
       let* validator := call (jsonschema_validate (bmember req "body") jobUpdateSchema) in
       let* valid := lift (member validator "valid") in
       let* _ := (if negb (ToBoolean valid) then
          let* errs := lift (member validator "errors") in
          let* errors := lift (array_map (fun e => member e "stack") errs) in
          throw (VError BadRequestError errors)
        else ret tt) in
       let* req := lift (ident sc "req") in
       let* id := lift (member (bmember req "params") "id") in
       let* req := lift (ident sc "req") in
       let* job := call (Job_update id (bmember req "body")) in
       let* res := lift (ident sc "res") in
       lift (res_json res (VObj {[ "job" := job ]})))
      (fun error =>
         let* next := lift (ident sc "next") in
         lift (call_next next error))
|}.

(** [router.delete("/:id", ensureAdmin, async function (req, res, next) {...})] *)
Definition delete_id : jsfun := {|
  formals := ["req"; "res"; "next"];
  is_async := true;
  fbody := fun sc =>
    try_catch
      (let* req := lift (ident sc "req") in
       let* id := lift (member (bmember req "params") "id") in
       let* _ := call (Job_remove id) in
       let* res := lift (ident sc "res") in
       let* req := lift (ident sc "req") in
       let* id := lift (member (bmember req "params") "id") in
       let* n := lift (ToNumber rt id) in
       lift (res_json res (VObj {[ "deleted" := VNum n ]})))
      (fun error =>
         let* next := lift (ident sc "next") in
         lift (call_next next error))
|}.

End Handlers.
End Routes.

(** ** Numbers between the store and JavaScript *)

(** The Number of an integer (exact below 2^53). *)
Definition num_of_Z (z : Z) : float :=
  if z <? 0 then PrimFloat.opp (PrimFloat.of_uint63 (Uint63Axioms.of_Z (- z)))
  else PrimFloat.of_uint63 (Uint63Axioms.of_Z z).

(** The integer a Number denotes, when it denotes one. *)
Definition Z_of_num (f : float) : option Z :=
  match Prim2SF f with
  | S754_zero _ => Some 0
  | S754_finite s m e =>
      let sign (z : Z) := if s then - z else z in
      if 0 <=? e then Some (sign (Z.pos m * 2 ^ e))
      else if Z.pos m mod 2 ^ (- e) =? 0 then Some (sign (Z.pos m / 2 ^ (- e)))
      else None
  | S754_infinity _ | S754_nan => None
  end.

Definition is_finite (f : float) : bool :=
  match Prim2SF f with
  | S754_zero _ | S754_finite _ _ _ => true
  | S754_infinity _ | S754_nan => false
  end.

Definition digit_of (c : ascii) : option Z :=
  let n := Z.of_nat (nat_of_ascii c) in
  if (48 <=? n) && (n <=? 57) then Some (n - 48) else None.

Fixpoint parse_digits (acc : Z) (s : string) : option Z :=
  match s with
  | EmptyString => Some acc
  | String c s' =>
      match digit_of c with
      | Some d => parse_digits (10 * acc + d) s'
      | None => None
      end
  end.

(** A non-empty string of decimal digits, read as an integer. *)
Definition parse_dec (s : string) : option Z :=
  match s with
  | EmptyString => None
  | _ => parse_digits 0 s
  end.

(** A runtime for the examples.  Its StringToNumber is ECMAScript's on the
    empty string and on decimal integer literals; every other string is sent to
    NaN, which is ECMAScript's answer only when the text is no numeric
    literal.  Its Number::toString is ECMAScript's on the integers below
    10^21; every other Number is printed as NaN.  An error object carries the
    name of its built-in class, the classes of expressError.js setting none
    of their own. *)
Definition digits_runtime : runtime := {|
  StringToNumber := fun s =>
    match s with
    | EmptyString => 0%float
    | _ => match parse_dec s with Some z => num_of_Z z | None => PrimFloat.nan end
    end;
  NumberToString := fun n =>
    match Z_of_num n with
    | Some z => NilZero.string_of_int (Z.to_int z)
    | None => "NaN"
    end;
  ErrorName := fun c =>
    match c with
    | ReferenceError => "ReferenceError"
    | TypeError => "TypeError"
    | _ => "Error"
    end
|}.

(** ** Express: routes, chains and the error responder *)

Module Express.

Inductive pattern : Type := Root | Param (name : string).

Definition match_path (p : pattern) (segs : list string) : option (gmap string value) :=
  match p, segs with
  | Root, [] => Some ∅
  | Param x, [s] => Some {[ x := VStr s ]}
  | _, _ => None
  end.

Record route : Type := {
  r_method : method;
  r_path : pattern;
  r_chain : list jsfun
}.

Definition method_eqb (a b : method) : bool :=
  match a, b with
  | GET, GET | POST, POST | PATCH, PATCH | DELETE, DELETE => true
  | _, _ => false
  end.

(** How a request ends.  [Unanswered e]: the promise an async function
    returned was rejected with [e] after it neither responded nor called
    [next]; what the framework does with an unhandled rejection is no part of
    the router.  [NoRoute]: the request leaves the router unhandled. *)
Inductive result : Type :=
| Response (status : Z) (payload : value)
| Unanswered (e : value)
| NoRoute.

(** Modelled from the spec: the centralized error responder of app.js, which
    is not among the sources.  It "maps error kind to status code and a JSON
    {error: {message, status}} body": ValidationError 400, AuthorizationError
    401, NotFoundError 404, unclassified failure 500. *)
Definition error_status (e : value) : Z :=
  match e with
  | VError BadRequestError _ => 400
  | VError UnauthorizedError _ => 401
  | VError NotFoundError _ => 404
  | _ => 500
  end.

Definition error_message (e : value) : value :=
  match e with VError _ msg => msg | _ => VUndefined end.

Definition error_responder (e : value) : result :=
  Response (error_status e)
    (VObj {[ "error" :=
       VObj (<[ "message" := error_message e ]>
               {[ "status" := VNum (num_of_Z (error_status e)) ]}) ]}).

(** The functions of a route run in order; [next()] passes on to the next
    one, [next(err)] and a synchronous throw go to the error responder. *)
Fixpoint run_chain (chain : list jsfun) (r : request) : prog result :=
  match chain with
  | [] => Ret NoRoute
  | f :: rest =>
      pbind (invoke f r) (fun c =>
        match c with
        | Normal (Responded s payload) => Ret (Response s payload)
        | Normal (Forwarded e) => Ret (error_responder e)
        | Normal Continued => run_chain rest r
        | Throw e => Ret (if is_async f then Unanswered e else error_responder e)
        end)
  end.

Definition with_params (r : request) (ps : gmap string value) : request :=
  {| req_method := req_method r; req_path := req_path r; query := query r;
     body := body r; params := ps; isAdmin := isAdmin r |}.

Fixpoint dispatch (routes : list route) (r : request) : prog result :=
  match routes with
  | [] => Ret NoRoute
  | rt :: rest =>
      if method_eqb (r_method rt) (req_method r) then
        match match_path (r_path rt) (req_path r) with
        | Some ps =>
            pbind (run_chain (r_chain rt) (with_params r ps)) (fun res =>
              match res with
              | NoRoute => dispatch rest r
              | _ => Ret res
              end)
        | None => dispatch rest r
        end
      else dispatch rest r
  end.

End Express.

(** ** middleware/auth.js *)

(** Modelled from the spec: [ensureAdmin] of middleware/auth.js, which is not
    among the sources.  The spec consumes authorization "as a boolean is this
    request authorized decision", [isAdmin(request)], and classifies a missing
    privilege as an AuthorizationError, answered 401. *)
Definition ensureAdmin : jsfun := {|
  formals := ["req"; "res"; "next"];
  is_async := false;
  fbody := fun sc =>
    let* req := lift (ident sc "req") in
    let* next := lift (ident sc "next") in
    match req, next with
    | Breq r, Bnext =>
        if isAdmin r then ret Continued
        else ret (Forwarded (VError UnauthorizedError (VStr "Unauthorized")))
    | _, _ => throw (type_error "next is not a function")
    end
|}.

(** The route table, in the order of registration in routes/jobs.js. *)
Definition router (rt : runtime) : list Express.route :=
  [ {| Express.r_method := POST; Express.r_path := Express.Root;
       Express.r_chain := [ensureAdmin; Routes.post_root] |};
    {| Express.r_method := GET; Express.r_path := Express.Root;
       Express.r_chain := [Routes.get_root rt] |};
    {| Express.r_method := GET; Express.r_path := Express.Param "id";
       Express.r_chain := [Routes.get_id] |};
    {| Express.r_method := PATCH; Express.r_path := Express.Param "id";
       Express.r_chain := [ensureAdmin; Routes.patch_id] |};
    {| Express.r_method := DELETE; Express.r_path := Express.Param "id";
       Express.r_chain := [ensureAdmin; Routes.delete_id rt] |} ].

(** ** Running a program against its collaborators *)

(** What stands behind the events: a validation engine and a Job model over
    some store [S]. *)
Record collaborators (S : Type) : Type := {
  validate : value -> schema -> completion value;
  create : value -> S -> completion value * S;
  findAll : value -> S -> completion value * S;
  get : value -> S -> completion value * S;
  update : value -> value -> S -> completion value * S;
  remove : value -> S -> completion value * S
}.
Arguments validate {S} _ _ _.
Arguments create {S} _ _ _.
Arguments findAll {S} _ _ _.
Arguments get {S} _ _ _.
Arguments update {S} _ _ _ _.
Arguments remove {S} _ _ _.

Definition perform {S : Type} (C : collaborators S) (e : event) (s : S)
  : completion value * S :=
  match e with
  | jsonschema_validate instance sch => (validate C instance sch, s)
  | Job_create data => create C data s
  | Job_findAll q => findAll C q s
  | Job_get id => get C id s
  | Job_update id data => update C id data s
  | Job_remove id => remove C id s
  end.

(** The answer of a program, the events it performed in order, and the store
    it leaves. *)
Fixpoint run {S A : Type} (C : collaborators S) (m : prog A) (s : S)
  : A * list event * S :=
  match m with
  | Ret a => (a, [], s)
  | Vis e k =>
      let '(r, s1) := perform C e s in
      let '(a, tr, s2) := run C (k r) s1 in
      (a, e :: tr, s2)
  end.

Definition serve {S : Type} (rt : runtime) (C : collaborators S)
  (r : request) (s : S) : Express.result * list event * S :=
  run C (Express.dispatch (router rt) r) s.

(** ** The jsonschema engine and the three schemas *)

Module Jsonschema.

Definition dq : string := String (ascii_of_nat 34) EmptyString.

(** The result objects of the jsonschema package.  A ValidationError carries
    [property], [message] and [stack] (the two joined by a space); a
    ValidatorResult carries [instance], [propertyPath], [errors],
    [disableFormat] and the accessor [valid] (no error recorded).  Its other
    own properties ([schema], [options], [path] and the throw flags) are read
    by no handler and are left out; it has no property named [validate]. *)
Definition ValidationError (property message : string) : value :=
  VObj (list_to_map
    [ ("property", VStr property); ("message", VStr message);
      ("stack", VStr (property ++ " " ++ message)) ]).

Definition ValidatorResult (instance : value) (errors : list value) : value :=
  VObj (list_to_map
    [ ("instance", instance); ("propertyPath", VStr "instance");
      ("errors", VArr errors); ("disableFormat", VBool false);
      ("valid", VBool (match errors with [] => true | _ => false end)) ]).

Inductive jtype : Type := TString | TInteger | TNumber | TBoolean.

Definition type_name (t : jtype) : string :=
  match t with
  | TString => "string" | TInteger => "integer"
  | TNumber => "number" | TBoolean => "boolean"
  end.

Definition has_type (t : jtype) (v : value) : bool :=
  match t, v with
  | TString, VStr _ => true
  | TInteger, VNum n => match Z_of_num n with Some _ => true | None => false end
  | TNumber, VNum n => is_finite n
  | TBoolean, VBool _ => true
  | _, _ => false
  end.

Record property_schema : Type := {
  p_name : string;
  p_type : jtype;
  p_nonnegative : bool           (* minimum: 0 *)
}.

Record object_schema : Type := {
  properties : list property_schema;
  required : list string;
  additionalProperties : bool
}.

Definition property_errors (props : gmap string value) (p : property_schema) : list value :=
  match props !! p_name p with
  | None | Some VUndefined => []
  | Some v =>
      (if has_type (p_type p) v then []
       else [ValidationError ("instance." ++ p_name p)
               ("is not of a type(s) " ++ type_name (p_type p))])
      ++
      (match v with
       | VNum n =>
           if p_nonnegative p && negb (PrimFloat.leb 0%float n)
           then [ValidationError ("instance." ++ p_name p)
                   "must be greater than or equal to 0"]
           else []
       | _ => []
       end)
  end.

Definition required_errors (props : gmap string value) (k : string) : list value :=
  match props !! k with
  | None | Some VUndefined =>
      [ValidationError "instance" ("requires property " ++ dq ++ k ++ dq)]
  | Some _ => []
  end.

Definition declared (sch : object_schema) (k : string) : bool :=
  existsb (fun p => String.eqb (p_name p) k) (properties sch).

Definition additional_errors (sch : object_schema) (props : gmap string value) : list value :=
  if additionalProperties sch then []
  else
    flat_map (fun kv : string * value =>
      if declared sch (fst kv) then []
      else [ValidationError "instance"
              ("is not allowed to have the additional property " ++ dq ++ fst kv ++ dq)])
      (map_to_list props).

Definition errors_of (sch : object_schema) (instance : value) : list value :=
  match instance with
  | VObj props =>
      flat_map (property_errors props) (properties sch)
      ++ flat_map (required_errors props) (required sch)
      ++ additional_errors sch props
  | _ => [ValidationError "instance" "is not of a type(s) object"]
  end.

(** Modelled from the spec: schemas/jobNew.json, jobUpdate.json and
    jobSearch.json, which are not among the sources.  Creation: "required:
    title, salary, equity, companyHandle with correct types".  Update: "only
    title/salary/equity allowed, all optional, reject unknown keys".  Search:
    "optional keys minSalary (non-negative number), hasEquity (boolean), title
    (string)", and "no other keys are accepted". *)
Definition prop (k : string) (t : jtype) : property_schema :=
  {| p_name := k; p_type := t; p_nonnegative := false |}.

Definition schema_of (s : schema) : object_schema :=
  match s with
  | jobNewSchema =>
      {| properties := [prop "title" TString; prop "salary" TInteger;
                        prop "equity" TString; prop "companyHandle" TString];
         required := ["title"; "salary"; "equity"; "companyHandle"];
         additionalProperties := true |}
  | jobUpdateSchema =>
      {| properties := [prop "title" TString; prop "salary" TInteger;
                        prop "equity" TString];
         required := [];
         additionalProperties := false |}
  | jobSearchSchema =>
      {| properties := [ {| p_name := "minSalary"; p_type := TNumber;
                            p_nonnegative := true |};
                         prop "hasEquity" TBoolean; prop "title" TString];
         required := [];
         additionalProperties := false |}
  end.

(** [jsonschema.validate(instance, schema)] *)
Definition validate (instance : value) (s : schema) : completion value :=
  Normal (ValidatorResult instance (errors_of (schema_of s) instance)).

End Jsonschema.

(** ** models/job.js *)

(** Modelled from the spec: the Job repository (models/job.js) with its two
    clause builders, none of which is among the sources.  The definitions
    follow sections 3, 4.1, 4.2 and 4.3 of the specification; the store is the
    jobs table, the companies table and the id sequence. *)
Module Job.

Record company : Type := {
  handle : string;
  name : string;
  description : string;
  numEmployees : option Z;
  logoUrl : option string
}.

Record job : Type := {
  id : Z;
  title : string;
  salary : option Z;
  equity : option string;          (* a decimal string, never a number *)
  companyHandle : string
}.

Record store : Type := {
  companies : list company;
  jobs : list job;
  next_id : Z
}.

(** *** Decimal strings *)

Fixpoint split_dot (s : string) : string * option string :=
  match s with
  | EmptyString => (EmptyString, None)
  | String c s' =>
      if Ascii.eqb c "."%char then (EmptyString, Some s')
      else let '(a, b) := split_dot s' in (String c a, b)
  end.

(** The rational a decimal string denotes: digits, optionally followed by a
    point and at least one digit. *)
Definition decimal (s : string) : option Q :=
  match split_dot s with
  | (i, None) => option_map inject_Z (parse_dec i)
  | (i, Some f) =>
      match parse_digits 0 i, parse_dec f with
      | Some a, Some b =>
          let scale := 10 ^ Z.of_nat (String.length f) in
          Some (Qmake (a * scale + b) (Z.to_pos scale))
      | _, _ => None
      end
  end.

Definition equity_positive (e : option string) : bool :=
  match e with
  | Some s => match decimal s with Some q => 0 <? Qnum q | None => false end
  | None => false
  end.

(** *** Case-insensitive partial match *)

Definition lower_ascii (c : ascii) : ascii :=
  let n := nat_of_ascii c in
  if ((65 <=? n) && (n <=? 90))%nat then ascii_of_nat (n + 32) else c.

Fixpoint lower (s : string) : string :=
  match s with
  | EmptyString => EmptyString
  | String c s' => String (lower_ascii c) (lower s')
  end.

Fixpoint infix (p s : string) : bool :=
  String.prefix p s ||
  match s with
  | EmptyString => false
  | String _ s' => infix p s'
  end.

(** *** 4.1 Filter Clause Builder *)

(** A predicate of the WHERE clause; [placeholder] is the position of its
    bound value. *)
Inductive predicate : Type :=
| SalaryAtLeast (placeholder : nat)     (* salary >= ? *)
| EquityPositive                        (* equity > 0 *)
| TitleILike (placeholder : nat).       (* title ILIKE '%' + ? + '%' *)

Record clause : Type := {
  predicates : list predicate;
  bound : list value
}.

Definition present (filters : gmap string value) (k : string) : option value :=
  match filters !! k with
  | Some VUndefined | None => None
  | Some v => Some v
  end.

Definition push (mk : nat -> predicate) (v : value) (c : clause) : clause :=
  {| predicates := predicates c ++ [mk (length (bound c))];
     bound := bound c ++ [v] |}.

Definition filter_clause (filters : gmap string value) : clause :=
  let c0 := {| predicates := []; bound := [] |} in
  let c1 := match present filters "minSalary" with
            | Some v => push SalaryAtLeast v c0
            | None => c0
            end in
  let c2 := match present filters "hasEquity" with
            | Some (VBool true) =>
                {| predicates := predicates c1 ++ [EquityPositive]; bound := bound c1 |}
            | _ => c1
            end in
  match present filters "title" with
  | Some v => push TitleILike v c2
  | None => c2
  end.

Definition holds (vals : list value) (j : job) (p : predicate) : bool :=
  match p with
  | SalaryAtLeast i =>
      match vals !! i, salary j with
      | Some (VNum n), Some z => PrimFloat.leb n (num_of_Z z)
      | _, _ => false
      end
  | EquityPositive => equity_positive (equity j)
  | TitleILike i =>
      match vals !! i with
      | Some (VStr t) => infix (lower t) (lower (title j))
      | _ => false
      end
  end.

Definition satisfies (c : clause) (j : job) : bool :=
  forallb (holds (bound c) j) (predicates c).

(** *** 4.2 Partial Update Clause Builder *)

Inductive column : Type := Ctitle | Csalary | Cequity.

(** The explicit mapping from field names to columns. *)
Definition updatable : list (string * column) :=
  [("title", Ctitle); ("salary", Csalary); ("equity", Cequity)].

Definition set_clause (data : gmap string value) : list (column * value) :=
  flat_map (fun fc : string * column =>
    match present data (fst fc) with
    | Some v => [(snd fc, v)]
    | None => []
    end) updatable.

Definition assign (j : job) (a : column * value) : option job :=
  match a with
  | (Ctitle, VStr t) =>
      Some {| id := id j; title := t; salary := salary j; equity := equity j;
              companyHandle := companyHandle j |}
  | (Csalary, VNum n) =>
      match Z_of_num n with
      | Some z => Some {| id := id j; title := title j; salary := Some z;
                          equity := equity j; companyHandle := companyHandle j |}
      | None => None
      end
  | (Csalary, VNull) =>
      Some {| id := id j; title := title j; salary := None; equity := equity j;
              companyHandle := companyHandle j |}
  | (Cequity, VStr e) =>
      Some {| id := id j; title := title j; salary := salary j; equity := Some e;
              companyHandle := companyHandle j |}
  | (Cequity, VNull) =>
      Some {| id := id j; title := title j; salary := salary j; equity := None;
              companyHandle := companyHandle j |}
  | _ => None
  end.

Fixpoint assign_all (j : job) (l : list (column * value)) : option job :=
  match l with
  | [] => Some j
  | a :: l' => match assign j a with Some j' => assign_all j' l' | None => None end
  end.

(** *** 4.3 The operations *)

Definition opt_num (o : option Z) : value :=
  match o with Some z => VNum (num_of_Z z) | None => VNull end.

Definition opt_str (o : option string) : value :=
  match o with Some s => VStr s | None => VNull end.

Definition find_company (h : string) (s : store) : option company :=
  List.find (fun c => String.eqb (handle c) h) (companies s).

Definition find_job (i : Z) (s : store) : option job :=
  List.find (fun j => id j =? i) (jobs s).

(** The id a caller names: the path segment read as an integer, or a Number. *)
Definition id_of (v : value) : option Z :=
  match v with
  | VStr t => parse_dec t
  | VNum n => Z_of_num n
  | _ => None
  end.

Definition lookup_job (idv : value) (s : store) : option job :=
  match id_of idv with
  | Some i => find_job i s
  | None => None
  end.

(** {id, title, salary, equity, companyHandle} *)
Definition row (j : job) : gmap string value :=
  list_to_map
    [ ("id", VNum (num_of_Z (id j))); ("title", VStr (title j));
      ("salary", opt_num (salary j)); ("equity", opt_str (equity j));
      ("companyHandle", VStr (companyHandle j)) ].

(** {id, title, salary, equity, companyHandle, companyName} *)
Definition listing (s : store) (j : job) : option value :=
  match find_company (companyHandle j) s with
  | Some c => Some (VObj (<[ "companyName" := VStr (name c) ]> (row j)))
  | None => None
  end.

(** {id, title, salary, equity, company: {handle, name, description,
    numEmployees, logoUrl}} *)
Definition detail (j : job) (c : company) : value :=
  VObj (list_to_map
    [ ("id", VNum (num_of_Z (id j))); ("title", VStr (title j));
      ("salary", opt_num (salary j)); ("equity", opt_str (equity j));
      ("company", VObj (list_to_map
         [ ("handle", VStr (handle c)); ("name", VStr (name c));
           ("description", VStr (description c));
           ("numEmployees", opt_num (numEmployees c));
           ("logoUrl", opt_str (logoUrl c)) ])) ]).

Definition not_found : value := VError NotFoundError (VStr "No job").
Definition no_company : value := VError NotFoundError (VStr "No company").
Definition bad_request (what : string) : value := VError BadRequestError (VStr what).
Definition store_failure : value := VError Error (VStr "invalid input").

Definition read_new (data : value) : option job :=
  match data with
  | VObj m =>
      match m !! "title", m !! "companyHandle" with
      | Some (VStr t), Some (VStr h) =>
          assign_all {| id := 0; title := t; salary := None; equity := None;
                        companyHandle := h |}
            (flat_map (fun fc : string * column =>
               match present m (fst fc) with
               | Some v => [(snd fc, v)]
               | None => []
               end) [("salary", Csalary); ("equity", Cequity)])
      | _, _ => None
      end
  | _ => None
  end.

Definition with_id (i : Z) (j : job) : job :=
  {| id := i; title := title j; salary := salary j; equity := equity j;
     companyHandle := companyHandle j |}.

Definition create (data : value) (s : store) : completion value * store :=
  match read_new data with
  | None => (Throw store_failure, s)
  | Some j0 =>
      match find_company (companyHandle j0) s with
      | None => (Throw no_company, s)
      | Some _ =>
          let j := with_id (next_id s) j0 in
          (Normal (VObj (row j)),
           {| companies := companies s; jobs := jobs s ++ [j];
              next_id := next_id s + 1 |})
      end
  end.

Definition title_le (a b : job) : Prop := String.leb (title a) (title b) = true.

#[local] Instance title_le_dec (a b : job) : Decision (title_le a b).
Proof. unfold title_le. apply _. Defined.

(** The rows a search returns: the matching ones, by title ascending. *)
Definition select (filters : gmap string value) (s : store) : list job :=
  merge_sort title_le (List.filter (satisfies (filter_clause filters)) (jobs s)).

Definition findAll (searchFilters : value) (s : store) : completion value * store :=
  let filters := match searchFilters with VObj m => m | _ => ∅ end in
  (Normal (VArr (omap (listing s) (select filters s))), s).

Definition get (idv : value) (s : store) : completion value * store :=
  match lookup_job idv s with
  | None => (Throw not_found, s)
  | Some j =>
      match find_company (companyHandle j) s with
      | None => (Throw not_found, s)
      | Some c => (Normal (detail j c), s)
      end
  end.

Definition replace_job (j : job) (l : list job) : list job :=
  List.map (fun x => if id x =? id j then j else x) l.

Definition update (idv data : value) (s : store) : completion value * store :=
  let fields := match data with VObj m => m | _ => ∅ end in
  match fields !! "companyHandle" with
  | Some _ => (Throw (bad_request "companyHandle cannot be changed"), s)
  | None =>
      match set_clause fields with
      | [] => (Throw (bad_request "No data"), s)
      | sets =>
          match lookup_job idv s with
          | None => (Throw not_found, s)
          | Some j =>
              match assign_all j sets with
              | None => (Throw store_failure, s)
              | Some j' =>
                  (Normal (VObj (row j')),
                   {| companies := companies s; jobs := replace_job j' (jobs s);
                      next_id := next_id s |})
              end
          end
      end
  end.

Definition remove (idv : value) (s : store) : completion value * store :=
  match lookup_job idv s with
  | None => (Throw not_found, s)
  | Some j =>
      (Normal VUndefined,
       {| companies := companies s;
          jobs := List.filter (fun x => negb (id x =? id j)) (jobs s);
          next_id := next_id s |})
  end.

End Job.

(** The application as the specification describes it: the jsonschema engine
    with the three schemas and the Job repository. *)
Definition jobly : collaborators Job.store := {|
  validate := Jsonschema.validate;
  create := Job.create;
  findAll := Job.findAll;
  get := Job.get;
  update := Job.update;
  remove := Job.remove
|}.

(** ** Events along the paths of a program *)

(** [occurs e m]: under some answers of the collaborators, [m] performs [e]. *)
Inductive occurs {A : Type} (e : event) : prog A -> Prop :=
| occurs_here (k : completion value -> prog A) : occurs e (Vis e k)
| occurs_later (e' : event) (k : completion value -> prog A) (c : completion value) :
    occurs e (k c) -> occurs e (Vis e' k).

(** The text of the [stack] of a validation error at [property]. *)
Definition stack_text (pm : string * string) : string := fst pm ++ " " ++ snd pm.

Definition violation (pm : string * string) : value :=
  Jsonschema.ValidationError (fst pm) (snd pm).

(** The routes that write: POST /jobs, PATCH /jobs/:id, DELETE /jobs/:id. *)
Definition write_route (r : request) : bool :=
  match req_method r, req_path r with
  | POST, [] | PATCH, [_] | DELETE, [_] => true
  | _, _ => false
  end.

Definition with_admin (b : bool) (r : request) : request :=
  {| req_method := req_method r; req_path := req_path r; query := query r;
     body := body r; params := params r; isAdmin := b |}.

Definition unauthorized : value := VError UnauthorizedError (VStr "Unauthorized").

(** The body the error responder sends for a message and a status. *)
Definition error_body (message : value) (status : float) : value :=
  VObj {[ "error" := VObj (<[ "message" := message ]> {[ "status" := VNum status ]}) ]}.

(** ** Decimal notation *)

(** Digits, the character of a digit, the string that writes a list of
    digits, and the integer such a list denotes, most significant digit
    first. *)
Definition is_digit (d : Z) : Prop := 0 <= d <= 9.

Definition digit_char (d : Z) : ascii := ascii_of_nat (Z.to_nat (48 + d)).

Fixpoint numeral_string (ds : list Z) : string :=
  match ds with
  | [] => EmptyString
  | d :: ds' => String (digit_char d) (numeral_string ds')
  end.

Fixpoint numeral (ds : list Z) : Z :=
  match ds with
  | [] => 0
  | d :: ds' => d * 10 ^ Z.of_nat (length ds') + numeral ds'
  end.

(** [denotes e q]: the decimal string [e], digits with or without a point
    followed by digits, writes the rational [q]. *)
Inductive denotes : string -> Q -> Prop :=
| denotes_integer (ds : list Z) :
    ds <> [] -> Forall is_digit ds ->
    denotes (numeral_string ds) (inject_Z (numeral ds))
| denotes_fraction (di df : list Z) :
    df <> [] -> Forall is_digit di -> Forall is_digit df ->
    denotes (numeral_string di ++ "." ++ numeral_string df)
      (inject_Z (numeral di)
       + inject_Z (numeral df) / inject_Z (10 ^ Z.of_nat (length df))).

(** A job whose equity is strictly greater than zero. *)
Definition positive_equity (j : Job.job) : Prop :=
  exists (e : string) (q : Q),
    Job.equity j = Some e /\ denotes e q /\ (0 < q)%Q.

(** [seg] is a decimal numeral of the integer [i]. *)
Definition writes (seg : string) (i : Z) : Prop :=
  exists ds : list Z,
    ds <> [] /\ Forall is_digit ds /\ seg = numeral_string ds /\ i = numeral ds.

(** No job of the store has an id that [seg] writes. *)
Definition names_no_job (seg : string) (s : Job.store) : Prop :=
  forall j, In j (Job.jobs s) -> ~ writes seg (Job.id j).

(** Every job of the store belongs to a company of the store. *)
Definition integrity (s : Job.store) : Prop :=
  forall j, In j (Job.jobs s) ->
  exists c, In c (Job.companies s) /\ Job.handle c = Job.companyHandle j.

(** [v] is the record {id, title, salary, equity, companyHandle, companyName}
    of the job [j] in the store [s]. *)
Definition lists (s : Job.store) (v : value) (j : Job.job) : Prop :=
  exists (m : gmap string value) (c : Job.company),
    v = VObj m
    /\ In c (Job.companies s) /\ Job.handle c = Job.companyHandle j
    /\ m !! "id" = Some (VNum (num_of_Z (Job.id j)))
    /\ m !! "title" = Some (VStr (Job.title j))
    /\ m !! "salary"
       = Some (match Job.salary j with Some z => VNum (num_of_Z z) | None => VNull end)
    /\ m !! "equity"
       = Some (match Job.equity j with Some e => VStr e | None => VNull end)
    /\ m !! "companyHandle" = Some (VStr (Job.companyHandle j))
    /\ m !! "companyName" = Some (VStr (Job.name c)).

(** [findAll] with the filters [q] returns, in order, the records of [rows]
    and leaves the store as it is. *)
Definition returns (q : gmap string value) (s : Job.store) (rows : list Job.job) : Prop :=
  exists vs : list value,
    Job.findAll (VObj q) s = (Normal (VArr vs), s) /\ Forall2 (lists s) vs rows.

(** ** Sample data: the seed of the route tests *)

Module Sample.

Definition c1 : Job.company :=
  {| Job.handle := "c1"; Job.name := "C1"; Job.description := "Desc1";
     Job.numEmployees := Some 1; Job.logoUrl := Some "http://c1.img" |}.

Definition J (i : Z) (t : string) (sal : Z) (eq : option string) : Job.job :=
  {| Job.id := i; Job.title := t; Job.salary := Some sal; Job.equity := eq;
     Job.companyHandle := "c1" |}.

Definition seed : Job.store :=
  {| Job.companies := [c1];
     Job.jobs := [J 1 "J1" 1 (Some "0.1"); J 2 "J2" 2 (Some "0.2"); J 3 "J3" 3 None];
     Job.next_id := 4 |}.

Definition mk (m : method) (path : list string) (q : gmap string value)
  (b : value) (admin : bool) : request :=
  {| req_method := m; req_path := path; query := q; body := b; params := ∅;
     isAdmin := admin |}.

(** GET /jobs *)
Definition list_all : request := mk GET [] ∅ (VObj ∅) false.

(** PATCH /jobs/1 {title: "J-New"} as admin *)
Definition patch_title : request :=
  mk PATCH ["1"] ∅ (VObj {[ "title" := VStr "J-New" ]}) true.

(** DELETE /jobs/1, as admin and as someone else *)
Definition delete_1 (admin : bool) : request := mk DELETE ["1"] ∅ (VObj ∅) admin.

(** GET /jobs/0 and DELETE /jobs/0 as admin *)
Definition get_0 : request := mk GET ["0"] ∅ (VObj ∅) false.
Definition delete_0 : request := mk DELETE ["0"] ∅ (VObj ∅) true.

Definition new_job (h : string) : value :=
  VObj (list_to_map
    [ ("companyHandle", VStr h); ("title", VStr "J-new");
      ("salary", VNum 10%float); ("equity", VStr "0.2") ]).

(** POST /jobs as admin, for company [h] *)
Definition post_new (h : string) : request := mk POST [] ∅ (new_job h) true.

(** POST /jobs as admin with only a companyHandle, and what the creation
    schema finds missing *)
Definition post_missing : request :=
  mk POST [] ∅ (VObj {[ "companyHandle" := VStr "c1" ]}) true.

Definition missing (k : string) : string * string :=
  ("instance", "requires property " ++ Jsonschema.dq ++ k ++ Jsonschema.dq).

End Sample.

(** ** Reading a run *)

Definition answer {S A : Type} (x : A * list event * S) : A := fst (fst x).
Definition trace {S A : Type} (x : A * list event * S) : list event := snd (fst x).

(** A handler ended by sending status [st], or by [next(err)]. *)
Definition success_or_forward (st : Z) (c : completion outcome) : Prop :=
  match c with
  | Normal (Responded st' _) => st' = st
  | Normal (Forwarded _) => True
  | Normal Continued | Throw _ => False
  end.

(** More requests against the seed data. *)
Module Requests.

(** GET /jobs/1 *)
Definition get_1 : request := Sample.mk GET ["1"] ∅ (VObj ∅) false.

(** GET /jobs?minSalary[toString]=x: the query parser delivers an object
    with an own property toString under minSalary *)
Definition list_toString : request :=
  Sample.mk GET [] {[ "minSalary" := VObj {[ "toString" := VStr "x" ]} ]} (VObj ∅) false.

End Requests.

(** * Properties *)

(** ** The program monad *)

Lemma run_pbind {S A B : Type} (C : collaborators S) (m : prog A) (f : A -> prog B) (s : S) :
  run C (pbind m f) s =
  let '(a, tr, s1) := run C m s in
  let '(b, tr', s2) := run C (f a) s1 in
  (b, (tr ++ tr')%list, s2).
Proof.
  revert s. induction m as [a | e k IH]; intros s; simpl.
  - destruct (run C (f a) s) as [[b tr'] s2]. reflexivity.
  - destruct (perform C e s) as [r s1]. rewrite IH.
    destruct (run C (k r) s1) as [[a tr] s2].
    destruct (run C (f a) s2) as [[b tr'] s3]. reflexivity.
Qed.

(** ** The jsonschema result objects *)

Lemma member_valid (inst : value) (errs : list value) :
  member (Jsonschema.ValidatorResult inst errs) "valid"
  = Normal (VBool (match errs with [] => true | _ => false end)).
Proof. reflexivity. Qed.

Lemma member_validate (inst : value) (errs : list value) :
  member (Jsonschema.ValidatorResult inst errs) "validate" = Normal VUndefined.
Proof. reflexivity. Qed.

Lemma member_errors (inst : value) (errs : list value) :
  member (Jsonschema.ValidatorResult inst errs) "errors" = Normal (VArr errs).
Proof. reflexivity. Qed.

Lemma member_stack (pm : string * string) :
  member (violation pm) "stack" = Normal (VStr (stack_text pm)).
Proof. reflexivity. Qed.

Lemma stacks_of_violations (pms : list (string * string)) :
  array_map (fun e => member e "stack") (VArr (List.map violation pms))
  = Normal (VArr (List.map (fun pm => VStr (stack_text pm)) pms)).
Proof.
  unfold array_map.
  assert (H : map_completion (fun e => member e "stack") (List.map violation pms)
              = Normal (List.map (fun pm => VStr (stack_text pm)) pms)).
  { induction pms as [| pm pms IH]; [reflexivity |].
    cbn [List.map map_completion]. rewrite member_stack, IH. reflexivity. }
  rewrite H. reflexivity.
Qed.

(** ** Events of a composed program *)

Lemma occurs_ret {A : Type} (e : event) (a : A) : occurs e (Ret a) -> False.
Proof. intros H. inversion H. Qed.

Lemma occurs_pbind {A B : Type} (e : event) (m : prog A) (f : A -> prog B) :
  occurs e (pbind m f) -> occurs e m \/ exists a, occurs e (f a).
Proof.
  induction m as [a | e' k IH]; simpl; intros H.
  - right. exists a. exact H.
  - inversion H; subst.
    + left. constructor.
    + match goal with
      | Hk : occurs e (pbind (k ?c) f) |- _ =>
          destruct (IH c Hk) as [Hm | Hf];
          [left; apply occurs_later with (c := c); exact Hm | right; exact Hf]
      end.
Qed.

(** Case analysis of [occurs] over the programs the handlers are made of. *)
Ltac occurs_cases :=
  repeat match goal with
  | H : occurs _ (Ret _) |- _ => destruct (occurs_ret _ _ H)
  | H : occurs _ (ret _) |- _ => destruct (occurs_ret _ _ H)
  | H : occurs _ (throw _) |- _ => destruct (occurs_ret _ _ H)
  | H : occurs _ (lift _) |- _ => destruct (occurs_ret _ _ H)
  | H : occurs _ (jbind _ _) |- _ => unfold jbind in H
  | H : occurs _ (pbind _ _) |- _ =>
      apply occurs_pbind in H; destruct H as [H | [? H]]
  | H : occurs _ (Vis _ _) |- _ => inversion H; subst; clear H
  | H : occurs _ (match ?x with _ => _ end) |- _ => destruct x
  | H : occurs _ (if ?x then _ else _) |- _ => destruct x
  end.

(** ** GET /jobs: the coercion of the query *)

Lemma coerce_query_obj (rt : runtime) (q : gmap string value) :
  Routes.coerce_query rt (VObj q)
  = let b := VBool (strict_eq_str (default VUndefined (q !! "hasEquity")) "true") in
    match q !! "minSalary" with
    | Some m =>
        if is_undefined m then Normal (VObj (<[ "hasEquity" := b ]> q))
        else match ToNumber rt m with
             | Normal n =>
                 Normal (VObj (<[ "hasEquity" := b ]> (<[ "minSalary" := VNum n ]> q)))
             | Throw e => Throw e
             end
    | None => Normal (VObj (<[ "hasEquity" := b ]> q))
    end.
Proof.
  unfold Routes.coerce_query. cbn [member set_member].
  destruct (q !! "minSalary") as [m |] eqn:Hm; cbn [default from_option id].
  - destruct (is_undefined m); cbn [negb member set_member default from_option id].
    + reflexivity.
    + destruct (ToNumber rt m) as [n | e]; [| reflexivity].
      cbn [member set_member default from_option id].
      rewrite lookup_insert_ne by discriminate. reflexivity.
  - reflexivity.
Qed.

Lemma strict_eq_str_true (v : value) (s : string) :
  strict_eq_str v s = true <-> v = VStr s.
Proof.
  destruct v; simpl; try (split; [discriminate | intros H; discriminate H]).
  rewrite String.eqb_eq. split; [intros -> | intros [= ->]]; reflexivity.
Qed.

(** What the handler of GET / is once the coercion has ended. *)
Lemma get_root_after_coercion (rt : runtime) (r : request) :
  match Routes.coerce_query rt (VObj (query r)) with
  | Throw e => invoke (Routes.get_root rt) r = Ret (Throw e)
  | Normal q1 =>
      exists k : completion value -> js outcome,
        invoke (Routes.get_root rt) r = Vis (jsonschema_validate q1 jobSearchSchema) k
  end.
Proof.
  unfold invoke. cbn -[Routes.coerce_query].
  destruct (Routes.coerce_query rt (VObj (query r))) as [q1 | e]; cbn.
  - eexists. reflexivity.
  - reflexivity.
Qed.

(** What the coercion does to a query object. *)
Lemma coerce_query_facts (rt : runtime) (q : gmap string value) :
  match Routes.coerce_query rt (VObj q) with
  | Throw e =>
      exists m, q !! "minSalary" = Some m /\ m <> VUndefined /\ ToNumber rt m = Throw e
  | Normal q1 =>
      exists (q' : gmap string value) (b : bool),
        q1 = VObj q'
        /\ (forall m, q !! "minSalary" = Some m -> m <> VUndefined ->
              exists n, ToNumber rt m = Normal n /\ q' !! "minSalary" = Some (VNum n))
        /\ (q !! "minSalary" = None -> q' !! "minSalary" = None)
        /\ q' !! "hasEquity" = Some (VBool b)
        /\ (b = true <-> q !! "hasEquity" = Some (VStr "true"))
        /\ (forall key, key <> "minSalary" -> key <> "hasEquity" -> q' !! key = q !! key)
  end.
Proof.
  rewrite coerce_query_obj. cbv zeta.
  assert (Hb : forall b, b = strict_eq_str (default VUndefined (q !! "hasEquity")) "true" ->
                 (b = true <-> q !! "hasEquity" = Some (VStr "true"))).
  { intros b ->. rewrite strict_eq_str_true.
    destruct (q !! "hasEquity") as [h |]; cbn [default from_option id].
    - split; [intros -> | intros [= ->]]; reflexivity.
    - split; discriminate. }
  destruct (q !! "minSalary") as [m |] eqn:Hm.
  - destruct (is_undefined m) eqn:Hu.
    + eexists. eexists. split; [reflexivity |].
      split. { intros m' [= <-] Hne. destruct m; try discriminate Hu. congruence. }
      split; [discriminate |].
      split; [apply lookup_insert_eq |].
      split; [apply Hb; reflexivity |].
      intros key Hk1 Hk2. rewrite lookup_insert_ne by congruence. reflexivity.
    + destruct (ToNumber rt m) as [n | e] eqn:Hn.
      * eexists. eexists. split; [reflexivity |].
        split.
        { intros m' [= <-] _. exists n. split; [exact Hn |].
          rewrite lookup_insert_ne by discriminate. apply lookup_insert_eq. }
        split; [discriminate |].
        split; [apply lookup_insert_eq |].
        split; [apply Hb; reflexivity |].
        intros key Hk1 Hk2. rewrite !lookup_insert_ne by congruence. reflexivity.
      * exists m. split; [reflexivity |]. split; [| exact Hn].
        intros ->. discriminate Hu.
  - eexists. eexists. split; [reflexivity |].
    split; [discriminate |].
    split. { intros _. rewrite lookup_insert_ne by discriminate. exact Hm. }
    split; [apply lookup_insert_eq |].
    split; [apply Hb; reflexivity |].
    intros key Hk1 Hk2. rewrite lookup_insert_ne by congruence. reflexivity.
Qed.

(** C7 (amended). For every GET /jobs request: when the query has a
    [minSalary] on which unary plus throws, the handler throws that error
    before any validation; in every other case it first coerces the query and
    only then validates, and the object handed to the search schema holds,
    under [minSalary], the numeric coercion of the query's value when the
    query has one (and no [minSalary] when it has none); under [hasEquity],
    the boolean that is true exactly when the query's value is the string
    "true" (false for any other value and for no value); every other key is as
    it was. *)
Theorem list_coerces_query_before_validation (rt : runtime) (r : request) :
  match Routes.coerce_query rt (VObj (query r)) with
  | Throw e =>
      (exists m, query r !! "minSalary" = Some m /\ m <> VUndefined
                 /\ ToNumber rt m = Throw e)
      /\ invoke (Routes.get_root rt) r = Ret (Throw e)
  | Normal q1 =>
      exists (q' : gmap string value) (b : bool) (k : completion value -> js outcome),
        q1 = VObj q'
        /\ invoke (Routes.get_root rt) r
           = Vis (jsonschema_validate (VObj q') jobSearchSchema) k
        /\ (forall m, query r !! "minSalary" = Some m -> m <> VUndefined ->
              exists n, ToNumber rt m = Normal n /\ q' !! "minSalary" = Some (VNum n))
        /\ (query r !! "minSalary" = None -> q' !! "minSalary" = None)
        /\ q' !! "hasEquity" = Some (VBool b)
        /\ (b = true <-> query r !! "hasEquity" = Some (VStr "true"))
        /\ (forall key, key <> "minSalary" -> key <> "hasEquity" ->
              q' !! key = query r !! key)
  end.
Proof.
  pose proof (get_root_after_coercion rt r) as Hafter.
  pose proof (coerce_query_facts rt (query r)) as Hfacts.
  destruct (Routes.coerce_query rt (VObj (query r))) as [q1 | e].
  - destruct Hfacts as (q' & b & -> & Hfacts). destruct Hafter as [k Hk].
    exists q', b, k. split; [reflexivity |]. split; [exact Hk | exact Hfacts].
  - split; [exact Hfacts | exact Hafter].
Qed.

(** C7, as stated, fails: on GET /jobs?minSalary[toString]=x unary plus
    throws a TypeError on the object under minSalary, outside the [try]; the
    query is not coerced, nothing is validated, no call is made and the
    handler's promise is rejected. *)
Lemma list_with_unconvertible_minSalary_throws :
  ToNumber digits_runtime (VObj {[ "toString" := VStr "x" ]}) = Throw cannot_convert
  /\ Routes.coerce_query digits_runtime (VObj (query Requests.list_toString))
     = Throw cannot_convert
  /\ serve digits_runtime jobly Requests.list_toString Sample.seed
     = (Express.Unanswered cannot_convert, [], Sample.seed).
Proof. repeat split; vm_compute; reflexivity. Qed.


(** ** GET /jobs: what the handler does with the validator's answer *)

(** The handler tests [validator.validate], which no ValidatorResult has: once
    the query is coerced, for whatever list of violations the engine reports,
    the empty one included, the handler throws BadRequestError with their
    stacks and forwards it; Job.findAll is not reached. *)
Lemma list_rejects_every_result (rt : runtime) (r : request)
  (inst : value) (pms : list (string * string)) :
  match Routes.coerce_query rt (VObj (query r)) with
  | Throw e => invoke (Routes.get_root rt) r = Ret (Throw e)
  | Normal q' =>
      exists k : completion value -> js outcome,
        invoke (Routes.get_root rt) r = Vis (jsonschema_validate q' jobSearchSchema) k
        /\ k (Normal (Jsonschema.ValidatorResult inst (List.map violation pms)))
           = Ret (Normal (Forwarded (VError BadRequestError
                    (VArr (List.map (fun pm => VStr (stack_text pm)) pms)))))
  end.
Proof.
  unfold invoke. cbn -[Routes.coerce_query].
  destruct (Routes.coerce_query rt (VObj (query r))) as [q' | e]; [| reflexivity].
  cbn -[member array_map Jsonschema.ValidatorResult].
  eexists. split; [reflexivity |].
  cbn beta iota. rewrite member_validate. cbn -[member array_map Jsonschema.ValidatorResult].
  rewrite member_errors. cbn -[member array_map Jsonschema.ValidatorResult].
  rewrite stacks_of_violations. reflexivity.
Qed.

(** C1. GET /jobs without a query: the coerced query {hasEquity: false}
    passes the search schema, and yet the request is answered 400 with an
    empty list of violations; the only call made is the validation, Job.findAll
    is never called. *)
Theorem list_all_is_answered_400 :
  Jsonschema.errors_of (Jsonschema.schema_of jobSearchSchema)
    (VObj {[ "hasEquity" := VBool false ]}) = []
  /\ serve digits_runtime jobly Sample.list_all Sample.seed
     = (Express.Response 400
          (VObj {[ "error" :=
             VObj (<[ "message" := VArr [] ]> {[ "status" := VNum 400%float ]}) ]}),
        [jsonschema_validate (VObj {[ "hasEquity" := VBool false ]}) jobSearchSchema],
        Sample.seed).
Proof. split; vm_compute; reflexivity. Qed.

(** ** Errors inside the handlers *)

(** A [try] whose [catch] hands the error to [next] never ends by throwing. *)
Lemma try_catch_never_throws {S : Type} (C : collaborators S) (body : js outcome)
  (h : value -> js outcome) (s : S) :
  (forall e, exists o, h e = Ret (Normal o)) ->
  exists o, fst (fst (run C (try_catch body h) s)) = Normal o.
Proof.
  intros Hh. unfold try_catch. rewrite run_pbind.
  destruct (run C body s) as [[[a | e] tr] s1].
  - exists a. reflexivity.
  - destruct (Hh e) as [o Ho]. rewrite Ho. exists o. reflexivity.
Qed.

(** The handlers of POST /, GET /:id and DELETE /:id end normally whatever
    their collaborators answer or throw: an error is caught and given to
    [next].  So does the handler of GET / once its coercion, which stands
    outside the [try], has ended. *)
Lemma handlers_with_parameters_forward {S : Type} (rt : runtime)
  (C : collaborators S) (h : jsfun) (r : request) (s : S) :
  In h [Routes.post_root; Routes.get_id; Routes.delete_id rt] ->
  (exists o, fst (fst (run C (invoke h r) s)) = Normal o)
  /\ match Routes.coerce_query rt (VObj (query r)) with
     | Normal _ => exists o, fst (fst (run C (invoke (Routes.get_root rt) r) s)) = Normal o
     | Throw e => run C (invoke (Routes.get_root rt) r) s = (Throw e, [], s)
     end.
Proof.
  intros Hin. split.
  - destruct Hin as [<- | [<- | [<- | []]]]; unfold invoke; cbn -[try_catch];
      apply try_catch_never_throws; intros e; eexists; reflexivity.
  - unfold invoke. cbn -[try_catch Routes.coerce_query].
    destruct (Routes.coerce_query rt (VObj (query r))) as [q1 | e]; cbn -[try_catch].
    + apply try_catch_never_throws; intros e; eexists; reflexivity.
    + reflexivity.
Qed.

(** C9. The PATCH handler declares no parameter, so [req] is unbound in its
    body and [next] is unbound in its [catch]: for every request the error
    raised in the [try] is caught, but the [catch] itself throws a
    ReferenceError; the handler ends by throwing and nothing reaches [next]. *)
Theorem patch_error_is_not_forwarded (r : request) :
  invoke Routes.patch_id r
  = Ret (Throw (VError ReferenceError (VStr "next is not defined"))).
Proof. reflexivity. Qed.

(** C2. PATCH /jobs/1 with body {title: "J-New"} as admin, job 1 existing:
    the update schema accepts the body, but the handler sends no response (its
    promise is rejected with a ReferenceError), no collaborator is called, in
    particular not Job.update, and the store is unchanged. *)
Theorem patch_existing_job_is_unanswered :
  Jsonschema.errors_of (Jsonschema.schema_of jobUpdateSchema) (body Sample.patch_title) = []
  /\ Job.lookup_job (VStr "1") Sample.seed = Some (Sample.J 1 "J1" 1 (Some "0.1"))
  /\ serve digits_runtime jobly Sample.patch_title Sample.seed
     = (Express.Unanswered (VError ReferenceError (VStr "next is not defined")),
        [], Sample.seed).
Proof. repeat split; vm_compute; reflexivity. Qed.

(** ** Authorization *)

(** C3. A request to POST /jobs, PATCH /jobs/:id or DELETE /jobs/:id that is
    not authorized as admin is answered 401 and performs no call at all,
    whatever the collaborators are; whatever function follows [ensureAdmin]
    in the chain is not run.  The two GET routes have no [ensureAdmin] in
    their chain, and their answer does not depend on the authorization. *)
Theorem writes_require_admin {S : Type} (rt : runtime)
  (C : collaborators S) (r : request) (s : S)
  (Hw : write_route r = true) (Ha : isAdmin r = false) :
  serve rt C r s
  = (Express.Response 401 (error_body (VStr "Unauthorized") 401%float), [], s)
  /\ (forall h : jsfun,
        Express.run_chain [ensureAdmin; h] r = Ret (Express.error_responder unauthorized))
  /\ (forall rte, In rte (router rt) -> Express.r_method rte = GET ->
        Express.r_chain rte = [Routes.get_root rt]
        \/ Express.r_chain rte = [Routes.get_id])
  /\ (forall (r' : request) (b : bool) (s' : S), req_method r' = GET ->
        serve rt C (with_admin b r') s' = serve rt C r' s').
Proof.
  split; [| split; [| split]].
  - destruct r as [m p q b ps a]. unfold write_route in Hw. cbn in Hw, Ha. subst a.
    destruct m; destruct p as [| x [| y l]]; try discriminate Hw; reflexivity.
  - intros h. destruct r as [m p q b ps a]. cbn in Ha. subst a. reflexivity.
  - intros rte Hin Hg. cbn in Hin.
    destruct Hin as [<- | [<- | [<- | [<- | [<- | []]]]]];
      cbn in Hg; try discriminate Hg; cbn; auto.
  - intros r' b s' Hg. destruct r' as [m p q bd ps a]. cbn in Hg. subst m.
    destruct p as [| x [| y l]]; reflexivity.
Qed.

(** Non-admin DELETE /jobs/1 on the seed data. *)
Lemma writes_require_admin_witness :
  serve digits_runtime jobly (Sample.delete_1 false) Sample.seed
  = (Express.Response 401 (error_body (VStr "Unauthorized") 401%float), [], Sample.seed)
  /\ Job.lookup_job (VStr "1") Sample.seed = Some (Sample.J 1 "J1" 1 (Some "0.1")).
Proof.
  split.
  - exact (proj1 (writes_require_admin digits_runtime jobly (Sample.delete_1 false)
                    Sample.seed eq_refl eq_refl)).
  - reflexivity.
Defined.

(** ** POST /jobs *)

(** C4 (amended). For every admin POST /jobs request, with the engine
    reporting the violations [pms] of the creation schema: if there is at
    least one, the handler throws a BadRequestError whose message lists the
    stack of every violation, in order, the error is forwarded and the
    response is 400, Job.create not being called; if there is none, Job.create
    is called with the body, and the response is 201 with body {job} when it
    returns a job, while an error it throws is forwarded to the responder. *)
Theorem create_validates_then_creates {S : Type} (rt : runtime)
  (C : collaborators S) (r : request) (s : S) (pms : list (string * string))
  (Hm : req_method r = POST) (Hp : req_path r = []) (Ha : isAdmin r = true)
  (Hv : validate C (body r) jobNewSchema
        = Normal (Jsonschema.ValidatorResult (body r) (List.map violation pms))) :
  match pms with
  | _ :: _ =>
      let errors := VArr (List.map (fun pm => VStr (stack_text pm)) pms) in
      fst (fst (run C (invoke Routes.post_root (Express.with_params r ∅)) s))
      = Normal (Forwarded (VError BadRequestError errors))
      /\ serve rt C r s
         = (Express.Response 400 (error_body errors 400%float),
            [jsonschema_validate (body r) jobNewSchema], s)
  | [] =>
      match create C (body r) s with
      | (Normal job, s') =>
          serve rt C r s
          = (Express.Response 201 (VObj {[ "job" := job ]}),
             [jsonschema_validate (body r) jobNewSchema; Job_create (body r)], s')
      | (Throw e, s') =>
          serve rt C r s
          = (Express.error_responder e,
             [jsonschema_validate (body r) jobNewSchema; Job_create (body r)], s')
      end
  end.
Proof.
  destruct r as [m p q b ps a]. cbn in Hm, Hp, Ha, Hv. subst m p a.
  unfold serve. cbn -[member array_map Jsonschema.ValidatorResult].
  rewrite Hv. cbn -[member array_map Jsonschema.ValidatorResult].
  rewrite member_valid.
  destruct pms as [| pm pms].
  - cbn -[member array_map Jsonschema.ValidatorResult].
    destruct (create C b s) as [[job | e] s']; reflexivity.
  - cbn -[member array_map Jsonschema.ValidatorResult List.map].
    rewrite member_errors. cbn -[member array_map Jsonschema.ValidatorResult List.map].
    rewrite stacks_of_violations. split; reflexivity.
Qed.

(** Admin POST /jobs on the seed data: for the company c1, 201 and the new
    job; with title, salary and equity missing, 400 and the three violations. *)
Lemma create_validates_then_creates_witness :
  serve digits_runtime jobly (Sample.post_new "c1") Sample.seed
  = (Express.Response 201
       (VObj {[ "job" := VObj (Job.row (Job.with_id 4 (Sample.J 0 "J-new" 10 (Some "0.2")))) ]}),
     [jsonschema_validate (Sample.new_job "c1") jobNewSchema; Job_create (Sample.new_job "c1")],
     {| Job.companies := Job.companies Sample.seed;
        Job.jobs := (Job.jobs Sample.seed ++ [Sample.J 4 "J-new" 10 (Some "0.2")])%list;
        Job.next_id := 5 |})
  /\ serve digits_runtime jobly Sample.post_missing Sample.seed
     = (Express.Response 400
          (error_body
             (VArr [VStr (stack_text (Sample.missing "title"));
                    VStr (stack_text (Sample.missing "salary"));
                    VStr (stack_text (Sample.missing "equity"))])
             400%float),
        [jsonschema_validate (body Sample.post_missing) jobNewSchema], Sample.seed).
Proof.
  split.
  - exact (create_validates_then_creates digits_runtime jobly (Sample.post_new "c1")
             Sample.seed [] eq_refl eq_refl eq_refl eq_refl).
  - exact (proj2 (create_validates_then_creates digits_runtime jobly Sample.post_missing
             Sample.seed
             [Sample.missing "title"; Sample.missing "salary"; Sample.missing "equity"]
             eq_refl eq_refl eq_refl eq_refl)).
Defined.

(** C4, as stated, fails: the body below passes the creation schema and the
    request is an admin's, Job.create is called with the body, but the company
    does not exist, Job.create throws, and the response is 404, not 201. *)
Lemma create_for_unknown_company_is_not_201 :
  isAdmin (Sample.post_new "nope") = true
  /\ Jsonschema.errors_of (Jsonschema.schema_of jobNewSchema) (Sample.new_job "nope") = []
  /\ serve digits_runtime jobly (Sample.post_new "nope") Sample.seed
     = (Express.Response 404 (error_body (VStr "No company") 404%float),
        [jsonschema_validate (Sample.new_job "nope") jobNewSchema;
         Job_create (Sample.new_job "nope")],
        Sample.seed).
Proof. repeat split; vm_compute; reflexivity. Qed.

(** ** DELETE /jobs/:id *)

(** C6. For every admin DELETE /jobs/:id request for which Job.remove returns
    (the job exists), the handler has called Job.remove with the id segment of
    the path, and nothing else, and the response is 200 with body
    {deleted: n}, [n] being the Number that unary plus makes of the segment. *)
Theorem delete_reports_numeric_id {S : Type} (rt : runtime)
  (C : collaborators S) (r : request) (s s' : S) (seg : string) (v : value)
  (Hm : req_method r = DELETE) (Hp : req_path r = [seg]) (Ha : isAdmin r = true)
  (Hr : remove C (VStr seg) s = (Normal v, s')) :
  serve rt C r s
  = (Express.Response 200 (VObj {[ "deleted" := VNum (StringToNumber rt seg) ]}),
     [Job_remove (VStr seg)], s').
Proof.
  destruct r as [m p q b ps a]. cbn in Hm, Hp, Ha. subst m p a.
  unfold serve. cbn -[remove]. rewrite lookup_singleton_eq. cbn -[remove].
  rewrite Hr. reflexivity.
Qed.

(** Admin DELETE /jobs/1 on the seed data, where job 1 exists. *)
Lemma delete_reports_numeric_id_witness :
  Job.lookup_job (VStr "1") Sample.seed = Some (Sample.J 1 "J1" 1 (Some "0.1"))
  /\ serve digits_runtime jobly (Sample.delete_1 true) Sample.seed
     = (Express.Response 200 (VObj {[ "deleted" := VNum 1%float ]}),
        [Job_remove (VStr "1")],
        {| Job.companies := [Sample.c1];
           Job.jobs := [Sample.J 2 "J2" 2 (Some "0.2"); Sample.J 3 "J3" 3 None];
           Job.next_id := 4 |}).
Proof.
  split; [reflexivity |].
  exact (delete_reports_numeric_id digits_runtime jobly (Sample.delete_1 true)
           Sample.seed _ "1" VUndefined eq_refl eq_refl eq_refl eq_refl).
Defined.


(** ** Decimal numerals and their parsers *)

Lemma digit_cases (d : Z) :
  is_digit d ->
  d = 0 \/ d = 1 \/ d = 2 \/ d = 3 \/ d = 4 \/ d = 5 \/ d = 6 \/ d = 7 \/ d = 8 \/ d = 9.
Proof. unfold is_digit. lia. Qed.

Lemma digit_of_char (d : Z) : is_digit d -> digit_of (digit_char d) = Some d.
Proof.
  intros H. destruct (digit_cases d H) as [-> | [-> | [-> | [-> | [-> | [-> | [-> | [-> | [-> | ->]]]]]]]]];
    reflexivity.
Qed.

Lemma digit_char_not_dot (d : Z) : is_digit d -> Ascii.eqb (digit_char d) "."%char = false.
Proof.
  intros H. destruct (digit_cases d H) as [-> | [-> | [-> | [-> | [-> | [-> | [-> | [-> | [-> | ->]]]]]]]]];
    reflexivity.
Qed.

Lemma digit_of_inv (c : ascii) (d : Z) :
  digit_of c = Some d -> is_digit d /\ c = digit_char d.
Proof.
  unfold digit_of, digit_char, is_digit.
  destruct (48 <=? Z.of_nat (nat_of_ascii c)) eqn:H1; [| discriminate].
  destruct (Z.of_nat (nat_of_ascii c) <=? 57) eqn:H2; [| discriminate].
  cbn [andb]. intros [= <-].
  apply Z.leb_le in H1. apply Z.leb_le in H2. split; [lia |].
  replace (48 + (Z.of_nat (nat_of_ascii c) - 48)) with (Z.of_nat (nat_of_ascii c)) by lia.
  rewrite Nat2Z.id, ascii_nat_embedding. reflexivity.
Qed.

Lemma numeral_string_length (ds : list Z) :
  String.length (numeral_string ds) = length ds.
Proof. induction ds as [| d ds IH]; simpl; [reflexivity | now rewrite IH]. Qed.

(** Reading digit by digit gives the value of the positional notation. *)
Lemma parse_digits_numeral (ds : list Z) (acc : Z) :
  Forall is_digit ds ->
  parse_digits acc (numeral_string ds)
  = Some (acc * 10 ^ Z.of_nat (length ds) + numeral ds).
Proof.
  intros H. revert acc. induction H as [| d ds Hd _ IH]; intros acc.
  - simpl. f_equal. lia.
  - cbn [numeral_string parse_digits]. rewrite (digit_of_char d Hd), IH.
    f_equal. cbn [length numeral]. rewrite Nat2Z.inj_succ, Z.pow_succ_r by lia. ring.
Qed.

Lemma parse_digits_inv (s : string) (acc z : Z) :
  parse_digits acc s = Some z ->
  exists ds, Forall is_digit ds /\ s = numeral_string ds
             /\ z = acc * 10 ^ Z.of_nat (length ds) + numeral ds.
Proof.
  revert acc. induction s as [| c s IH]; intros acc H.
  - injection H as <-. exists []. split; [constructor |]. split; [reflexivity |].
    simpl. lia.
  - cbn [parse_digits] in H. destruct (digit_of c) as [d |] eqn:Hd; [| discriminate].
    destruct (digit_of_inv c d Hd) as [Hdig ->].
    destruct (IH _ H) as (ds & Hds & -> & ->).
    exists (d :: ds). split; [constructor; assumption |]. split; [reflexivity |].
    cbn [length numeral]. rewrite Nat2Z.inj_succ, Z.pow_succ_r by lia. ring.
Qed.

Lemma parse_dec_numeral (ds : list Z) :
  ds <> [] -> Forall is_digit ds -> parse_dec (numeral_string ds) = Some (numeral ds).
Proof.
  intros Hne H. destruct ds as [| d ds]; [congruence |].
  unfold parse_dec. cbn [numeral_string].
  change (String (digit_char d) (numeral_string ds)) with (numeral_string (d :: ds)).
  rewrite parse_digits_numeral by exact H. f_equal; try lia.
Qed.

Lemma parse_dec_inv (s : string) (z : Z) : parse_dec s = Some z -> writes s z.
Proof.
  unfold parse_dec, writes. destruct s as [| c s]; [discriminate |]. intros H.
  destruct (parse_digits_inv _ _ _ H) as (ds & Hds & Hs & ->).
  exists ds. split; [| split; [exact Hds | split; [exact Hs | lia]]].
  intros ->. discriminate Hs.
Qed.

(** ** Jobs that do not exist *)

Lemma find_job_none (i : Z) (s : Job.store) :
  (forall j, In j (Job.jobs s) -> Job.id j <> i) -> Job.find_job i s = None.
Proof.
  unfold Job.find_job. induction (Job.jobs s) as [| j l IH]; intros H; [reflexivity |].
  cbn [List.find]. destruct (Job.id j =? i) eqn:E.
  - apply Z.eqb_eq in E. destruct (H j (or_introl eq_refl) E).
  - apply IH. intros j' Hj'. apply H. right. exact Hj'.
Qed.

Lemma lookup_job_none (seg : string) (s : Job.store) :
  names_no_job seg s -> Job.lookup_job (VStr seg) s = None.
Proof.
  intros H. unfold Job.lookup_job, Job.id_of.
  destruct (parse_dec seg) as [i |] eqn:Hp; [| reflexivity].
  apply find_job_none. intros j Hj Heq. apply (H j Hj). rewrite Heq.
  apply parse_dec_inv, Hp.
Qed.

(** C5 (amended). For every path id that writes the id of no existing job:
    [get] and [remove] fail with NotFoundError, and so does [update] when its
    data names at least one of title, salary and equity and no companyHandle;
    the GET /jobs/:id handler, and the DELETE /jobs/:id handler for an admin,
    forward that error and the response status is 404, the store being left
    as it is.  Whether or not the id exists, [update] with a companyHandle in
    its data, or with none of title, salary and equity, fails with a
    BadRequestError, answered 400, and changes nothing. *)
Theorem missing_job_is_not_found (rt : runtime) (s : Job.store) (seg : string)
  (Hmiss : names_no_job seg s) :
  Job.get (VStr seg) s = (Throw (VError NotFoundError (VStr "No job")), s)
  /\ Job.remove (VStr seg) s = (Throw (VError NotFoundError (VStr "No job")), s)
  /\ (forall (data : gmap string value) (k : string) (v : value),
        data !! "companyHandle" = None ->
        In k ["title"; "salary"; "equity"] -> data !! k = Some v -> v <> VUndefined ->
        Job.update (VStr seg) (VObj data) s
        = (Throw (VError NotFoundError (VStr "No job")), s))
  /\ (forall r : request, req_method r = GET -> req_path r = [seg] ->
        serve rt jobly r s
        = (Express.Response 404 (error_body (VStr "No job") 404%float),
           [Job_get (VStr seg)], s))
  /\ (forall r : request, req_method r = DELETE -> req_path r = [seg] ->
        isAdmin r = true ->
        serve rt jobly r s
        = (Express.Response 404 (error_body (VStr "No job") 404%float),
           [Job_remove (VStr seg)], s))
  /\ (forall (idv : value) (s' : Job.store) (data : gmap string value),
        (is_Some (data !! "companyHandle") ->
           exists msg, Job.update idv (VObj data) s' = (Throw (VError BadRequestError msg), s'))
        /\ (data !! "title" = None -> data !! "salary" = None -> data !! "equity" = None ->
            exists msg, Job.update idv (VObj data) s' = (Throw (VError BadRequestError msg), s'))
        /\ (forall msg, Express.error_status (VError BadRequestError msg) = 400)).
Proof.
  pose proof (lookup_job_none seg s Hmiss) as Hnone.
  assert (Hget : Job.get (VStr seg) s = (Throw (VError NotFoundError (VStr "No job")), s)).
  { unfold Job.get. rewrite Hnone. reflexivity. }
  assert (Hrem : Job.remove (VStr seg) s = (Throw (VError NotFoundError (VStr "No job")), s)).
  { unfold Job.remove. rewrite Hnone. reflexivity. }
  split; [exact Hget |]. split; [exact Hrem |]. split; [| split; [| split]].
  - intros data k v Hc Hk Hv Hu. unfold Job.update. rewrite Hc.
    assert (Hs : Job.set_clause data <> []).
    { unfold Job.set_clause, Job.updatable, Job.present. cbn [flat_map fst snd].
      destruct Hk as [<- | [<- | [<- | []]]]; rewrite Hv;
        destruct v; try congruence;
        repeat match goal with |- context [match ?x with _ => _ end] => destruct x end;
        discriminate. }
    destruct (Job.set_clause data) as [| a l]; [congruence |].
    rewrite Hnone. reflexivity.
  - intros r Hm Hp. destruct r as [m p q b ps a]. cbn in Hm, Hp. subst m p.
    unfold serve. cbn -[Job.get]. rewrite lookup_singleton_eq. cbn -[Job.get].
    rewrite Hget. reflexivity.
  - intros r Hm Hp Ha. destruct r as [m p q b ps a]. cbn in Hm, Hp, Ha. subst m p a.
    unfold serve. cbn -[Job.remove]. rewrite lookup_singleton_eq. cbn -[Job.remove].
    rewrite Hrem. reflexivity.
  - intros idv s' data. split; [| split].
    + intros [h Hh]. unfold Job.update. rewrite Hh. eexists. reflexivity.
    + intros Ht Hsal He. unfold Job.update.
      destruct (data !! "companyHandle"); [eexists; reflexivity |].
      unfold Job.set_clause, Job.updatable, Job.present. cbn [flat_map fst snd].
      rewrite Ht, Hsal, He. eexists. reflexivity.
    + reflexivity.
Qed.

Lemma seed_has_no_job_0 : names_no_job "0" Sample.seed.
Proof.
  intros j Hj (ds & Hne & Hds & Hs & Hi).
  assert (Hp : parse_dec "0" = Some (Job.id j)).
  { rewrite Hs, Hi. apply parse_dec_numeral; assumption. }
  cbn in Hp. injection Hp as Hp.
  cbn in Hj. destruct Hj as [<- | [<- | [<- | []]]]; discriminate Hp.
Qed.

(** No job of the seed data has the id 0: GET /jobs/0 is answered 404. *)
Lemma missing_job_is_not_found_witness :
  names_no_job "0" Sample.seed
  /\ serve digits_runtime jobly Sample.get_0 Sample.seed
     = (Express.Response 404 (error_body (VStr "No job") 404%float),
        [Job_get (VStr "0")], Sample.seed).
Proof.
  split; [exact seed_has_no_job_0 |].
  exact (proj1 (proj2 (proj2 (proj2
           (missing_job_is_not_found digits_runtime Sample.seed "0" seed_has_no_job_0))))
           Sample.get_0 eq_refl eq_refl).
Defined.

(** C5, as stated, fails: job 0 does not exist, and [update] with an empty
    field map fails with a BadRequestError, answered 400, not with a
    NotFoundError; so it does with a companyHandle in the data. *)
Lemma update_of_missing_job_can_be_bad_request :
  Job.lookup_job (VStr "0") Sample.seed = None
  /\ Job.update (VStr "0") (VObj ∅) Sample.seed
     = (Throw (VError BadRequestError (VStr "No data")), Sample.seed)
  /\ Job.update (VStr "0") (VObj {[ "companyHandle" := VStr "c1" ]}) Sample.seed
     = (Throw (VError BadRequestError (VStr "companyHandle cannot be changed")), Sample.seed)
  /\ Express.error_status (VError BadRequestError (VStr "No data")) = 400.
Proof. repeat split; vm_compute; reflexivity. Qed.

(** ** Decimal strings *)

Lemma split_dot_numeral (ds : list Z) :
  Forall is_digit ds ->
  Job.split_dot (numeral_string ds) = (numeral_string ds, None)
  /\ forall rest, Job.split_dot (numeral_string ds ++ "." ++ rest)
                  = (numeral_string ds, Some rest).
Proof.
  induction 1 as [| d ds Hd _ [IH1 IH2]]; [split; reflexivity |].
  split; [| intros rest].
  - cbn [numeral_string Job.split_dot].
    rewrite (digit_char_not_dot d Hd), IH1. reflexivity.
  - change (numeral_string (d :: ds) ++ "." ++ rest)
      with (String (digit_char d) (numeral_string ds ++ "." ++ rest)).
    cbn [Job.split_dot]. rewrite (digit_char_not_dot d Hd), IH2. reflexivity.
Qed.

Lemma split_dot_inv (s i : string) (o : option string) :
  Job.split_dot s = (i, o) ->
  match o with Some f => s = i ++ "." ++ f | None => s = i end.
Proof.
  revert i o. induction s as [| c s IH]; intros i o H.
  - injection H as <- <-. reflexivity.
  - cbn [Job.split_dot] in H. destruct (Ascii.eqb c ".") eqn:Hc.
    + apply Ascii.eqb_eq in Hc. subst c. injection H as <- <-. reflexivity.
    + destruct (Job.split_dot s) as [a b]. injection H as <- <-.
      specialize (IH a b eq_refl). destruct b; cbn; rewrite IH; reflexivity.
Qed.

Lemma scale_positive (n : nat) : 0 < 10 ^ Z.of_nat n.
Proof. apply Z.pow_pos_nonneg; lia. Qed.

Lemma fraction_value (a b scale : Z) :
  0 < scale ->
  (Qmake (a * scale + b) (Z.to_pos scale) == inject_Z a + inject_Z b / inject_Z scale)%Q.
Proof.
  intros H. rewrite Qmake_Qdiv, Z2Pos.id by exact H.
  rewrite inject_Z_plus, inject_Z_mult. field.
  intros Hz. apply (inject_Z_injective scale 0) in Hz. lia.
Qed.

(** The parser of decimal strings computes what the notation denotes, and
    reads every string the notation writes. *)
Lemma decimal_denotes (e : string) (q : Q) :
  Job.decimal e = Some q -> exists q', denotes e q' /\ (q == q')%Q.
Proof.
  unfold Job.decimal. destruct (Job.split_dot e) as [i [f |]] eqn:Hs;
    pose proof (split_dot_inv _ _ _ Hs) as He; cbn in He; subst e.
  - destruct (parse_digits 0 i) as [a |] eqn:Ha; [| discriminate].
    destruct (parse_dec f) as [b |] eqn:Hb; [| discriminate].
    intros [= <-].
    destruct (parse_digits_inv _ _ _ Ha) as (di & Hdi & -> & ->).
    destruct (parse_dec_inv _ _ Hb) as (df & Hne & Hdf & -> & ->).
    eexists. split; [apply denotes_fraction; eassumption |].
    rewrite numeral_string_length.
    replace (0 * 10 ^ Z.of_nat (length di) + numeral di) with (numeral di) by lia.
    apply fraction_value, scale_positive.
  - destruct (parse_dec i) as [a |] eqn:Ha; [| discriminate].
    intros [= <-].
    destruct (parse_dec_inv _ _ Ha) as (ds & Hne & Hds & -> & ->).
    eexists. split; [apply denotes_integer; assumption | reflexivity].
Qed.

Lemma denotes_decimal (e : string) (q' : Q) :
  denotes e q' -> exists q, Job.decimal e = Some q /\ (q == q')%Q.
Proof.
  intros [ds Hne Hds | di df Hne Hdi Hdf]; unfold Job.decimal.
  - rewrite (proj1 (split_dot_numeral ds Hds)), parse_dec_numeral by assumption.
    eexists. split; reflexivity.
  - rewrite (proj2 (split_dot_numeral di Hdi)).
    rewrite parse_digits_numeral, parse_dec_numeral by assumption.
    eexists. split; [reflexivity |].
    rewrite numeral_string_length.
    replace (0 * 10 ^ Z.of_nat (length di) + numeral di) with (numeral di) by lia.
    apply fraction_value, scale_positive.
Qed.

(** ** Searching with hasEquity *)

(** The test [equity > 0] of the search holds exactly for a job whose equity
    string denotes a positive rational. *)
Lemma equity_positive_spec (j : Job.job) :
  Job.equity_positive (Job.equity j) = true <-> positive_equity j.
Proof.
  unfold Job.equity_positive, positive_equity.
  destruct (Job.equity j) as [e |].
  - destruct (Job.decimal e) as [q |] eqn:Hd.
    + rewrite Z.ltb_lt. split.
      * intros H. destruct (decimal_denotes e q Hd) as (q' & Hq' & Heq).
        exists e, q'. split; [reflexivity |]. split; [exact Hq' |].
        rewrite <- Heq. unfold Qlt. simpl. lia.
      * intros (e' & q' & [= <-] & Hden & H).
        destruct (denotes_decimal e q' Hden) as (q0 & Hq0 & Heq).
        rewrite Hd in Hq0. injection Hq0 as <-.
        rewrite <- Heq in H. unfold Qlt in H. simpl in H. lia.
    + split; [discriminate |].
      intros (e' & q' & [= <-] & Hden & _).
      destruct (denotes_decimal e q' Hden) as (q0 & Hq0 & _).
      rewrite Hd in Hq0. discriminate Hq0.
  - split; [discriminate |]. intros (e' & q' & He & _). discriminate He.
Qed.

(** ** Referential integrity *)

Lemma assign_keeps (j j' : Job.job) (a : Job.column * value) :
  Job.assign j a = Some j' -> Job.companyHandle j' = Job.companyHandle j.
Proof.
  destruct a as [[] v]; destruct v; cbn; try discriminate;
    try (intros [= <-]; reflexivity).
  destruct (Z_of_num n); [intros [= <-]; reflexivity | discriminate].
Qed.

Lemma assign_all_keeps (l : list (Job.column * value)) (j j' : Job.job) :
  Job.assign_all j l = Some j' -> Job.companyHandle j' = Job.companyHandle j.
Proof.
  revert j. induction l as [| a l IH]; intros j; cbn.
  - intros [= <-]. reflexivity.
  - destruct (Job.assign j a) as [j1 |] eqn:Ha; [| discriminate].
    intros H. rewrite (IH _ H). apply (assign_keeps _ _ _ Ha).
Qed.

(** The operations of the Job model keep every job with a company of the
    store: [create] refuses a job whose company is unknown, [update] cannot
    change the companyHandle, [remove] only takes rows away, and no operation
    removes a company. *)
Lemma operations_keep_integrity (s : Job.store) :
  integrity s ->
  (forall data, integrity (snd (Job.create data s)))
  /\ (forall idv data, integrity (snd (Job.update idv data s)))
  /\ (forall idv, integrity (snd (Job.remove idv s)))
  /\ (forall idv, snd (Job.get idv s) = s)
  /\ (forall q, snd (Job.findAll q s) = s).
Proof.
  intros Hi. split; [| split; [| split; [| split]]].
  - intros data. unfold Job.create.
    destruct (Job.read_new data) as [j0 |]; [| exact Hi].
    destruct (Job.find_company (Job.companyHandle j0) s) as [c |] eqn:Hc; [| exact Hi].
    intros j Hj. cbn in Hj. apply in_app_or in Hj. destruct Hj as [Hj | [<- | []]].
    + exact (Hi j Hj).
    + apply find_some in Hc. destruct Hc as [Hin Heq]. apply String.eqb_eq in Heq.
      exists c. split; [exact Hin | exact Heq].
  - intros idv data. unfold Job.update.
    destruct (_ !! "companyHandle"); [exact Hi |].
    destruct (Job.set_clause _) as [| a l]; [exact Hi |].
    destruct (Job.lookup_job idv s) as [j0 |] eqn:Hl; [| exact Hi].
    destruct (Job.assign_all j0 (a :: l)) as [j' |] eqn:Ha; [| exact Hi].
    assert (Hj0 : In j0 (Job.jobs s)).
    { unfold Job.lookup_job in Hl. destruct (Job.id_of idv); [| discriminate].
      apply find_some in Hl. apply Hl. }
    intros j Hj. cbn in Hj. unfold Job.replace_job in Hj.
    apply in_map_iff in Hj. destruct Hj as (x & Hx & Hin).
    destruct (Job.id x =? Job.id j').
    + subst j. rewrite (assign_all_keeps _ _ _ Ha). exact (Hi j0 Hj0).
    + subst j. exact (Hi x Hin).
  - intros idv. unfold Job.remove.
    destruct (Job.lookup_job idv s) as [j0 |]; [| exact Hi].
    intros j Hj. cbn in Hj. apply filter_In in Hj. exact (Hi j (proj1 Hj)).
  - intros idv. unfold Job.get.
    destruct (Job.lookup_job idv s) as [j0 |]; [| reflexivity].
    destruct (Job.find_company _ s); reflexivity.
  - intros q. reflexivity.
Qed.
Lemma present_insert_ne (q : gmap string value) (k k' : string) (v : value) :
  k <> k' -> Job.present (<[ k := v ]> q) k' = Job.present q k'.
Proof. intros H. unfold Job.present. rewrite lookup_insert_ne by exact H. reflexivity. Qed.

Lemma present_delete_ne (q : gmap string value) (k k' : string) :
  k <> k' -> Job.present (delete k q) k' = Job.present q k'.
Proof. intros H. unfold Job.present. rewrite lookup_delete_ne by exact H. reflexivity. Qed.

Lemma present_insert_eq (q : gmap string value) (k : string) (b : bool) :
  Job.present (<[ k := VBool b ]> q) k = Some (VBool b).
Proof. unfold Job.present. rewrite lookup_insert_eq. reflexivity. Qed.

Lemma present_delete_eq (q : gmap string value) (k : string) :
  Job.present (delete k q) k = None.
Proof. unfold Job.present. rewrite lookup_delete_eq. reflexivity. Qed.

(** [hasEquity: false] builds the clause that no hasEquity builds. *)
Lemma filter_clause_hasEquity_false (q : gmap string value) :
  Job.filter_clause (<[ "hasEquity" := VBool false ]> q)
  = Job.filter_clause (delete "hasEquity" q).
Proof.
  unfold Job.filter_clause.
  rewrite (present_insert_ne q "hasEquity" "minSalary"),
    (present_insert_ne q "hasEquity" "title"),
    (present_delete_ne q "hasEquity" "minSalary"),
    (present_delete_ne q "hasEquity" "title") by discriminate.
  rewrite present_insert_eq, present_delete_eq. reflexivity.
Qed.

(** [hasEquity: true] adds the one predicate [equity > 0] and no bound value. *)
Lemma satisfies_hasEquity_true (q : gmap string value) (j : Job.job) :
  Job.satisfies (Job.filter_clause (<[ "hasEquity" := VBool true ]> q)) j
  = Job.satisfies (Job.filter_clause (delete "hasEquity" q)) j
    && Job.equity_positive (Job.equity j).
Proof.
  unfold Job.filter_clause.
  rewrite (present_insert_ne q "hasEquity" "minSalary"),
    (present_insert_ne q "hasEquity" "title"),
    (present_delete_ne q "hasEquity" "minSalary"),
    (present_delete_ne q "hasEquity" "title") by discriminate.
  rewrite present_insert_eq, present_delete_eq.
  unfold Job.satisfies, Job.push.
  destruct (Job.present q "minSalary") as [m |];
    destruct (Job.present q "title") as [t |];
    cbn [Job.predicates Job.bound];
    rewrite ?forallb_app; cbn [forallb Job.holds];
    destruct (Job.equity_positive (Job.equity j));
    rewrite ?andb_true_r, ?andb_false_r, ?andb_false_l; reflexivity.
Qed.

Lemma in_select (q : gmap string value) (s : Job.store) (j : Job.job) :
  In j (Job.select q s)
  <-> In j (Job.jobs s) /\ Job.satisfies (Job.filter_clause q) j = true.
Proof.
  unfold Job.select. rewrite <- filter_In.
  split; apply Permutation_in; [| symmetry]; apply merge_sort_Permutation.
Qed.

Lemma select_all (q : gmap string value) (s : Job.store) :
  Job.filter_clause q = {| Job.predicates := []; Job.bound := [] |} ->
  Permutation (Job.select q s) (Job.jobs s).
Proof.
  intros H. unfold Job.select. rewrite merge_sort_Permutation, H.
  unfold Job.satisfies. cbn [Job.predicates forallb].
  induction (Job.jobs s) as [| x l IH]; cbn [List.filter]; [reflexivity |].
  constructor. exact IH.
Qed.

(** GET /jobs?hasEquity=true against the seed data selects J1 and J2. *)
Example select_hasEquity_on_seed :
  List.map Job.title (Job.select {[ "hasEquity" := VBool true ]} Sample.seed) = ["J1"; "J2"]
  /\ List.map Job.title (Job.select {[ "hasEquity" := VBool false ]} Sample.seed)
     = ["J1"; "J2"; "J3"].
Proof. split; vm_compute; reflexivity. Qed.

Lemma listing_lists (s : Job.store) (j : Job.job) :
  integrity s -> In j (Job.jobs s) ->
  exists v, Job.listing s j = Some v /\ lists s v j.
Proof.
  intros Hi Hj. destruct (Hi j Hj) as (c & Hc & Hh).
  unfold Job.listing, Job.find_company.
  destruct (List.find (fun c0 => String.eqb (Job.handle c0) (Job.companyHandle j))
              (Job.companies s)) as [c' |] eqn:Hf.
  - apply find_some in Hf. destruct Hf as [Hin Heq]. apply String.eqb_eq in Heq.
    eexists. split; [reflexivity |].
    eexists. exists c'. split; [reflexivity |].
    repeat split; try assumption; try reflexivity.
  - pose proof (find_none _ _ Hf c Hc) as Hn. cbn in Hn.
    rewrite Hh, String.eqb_refl in Hn. discriminate Hn.
Qed.

Lemma findAll_returns_selection (q : gmap string value) (s : Job.store) :
  integrity s -> returns q s (Job.select q s).
Proof.
  intros Hi. unfold returns, Job.findAll.
  assert (H : forall rows, (forall j, In j rows -> In j (Job.jobs s)) ->
              Forall2 (lists s) (omap (Job.listing s) rows) rows).
  { induction rows as [| j rows IH]; intros Hsub; [constructor |].
    destruct (listing_lists s j Hi (Hsub j (or_introl eq_refl))) as (v & Hv & Hl).
    cbn [omap list_omap]. rewrite Hv. constructor; [exact Hl |].
    apply IH. intros j' Hj'. apply Hsub. right. exact Hj'. }
  eexists. split; [reflexivity |].
  apply H. intros j Hj. apply in_select in Hj. apply Hj.
Qed.


Lemma seed_integrity : integrity Sample.seed.
Proof.
  intros j Hj. exists Sample.c1. split; [left; reflexivity |].
  cbn in Hj. destruct Hj as [<- | [<- | [<- | []]]]; reflexivity.
Qed.

(** * Further properties of the handlers *)

(** Case analysis on what the collaborators answer, in the order the handler
    asks. *)
Ltac hold := cbn -[validate create findAll get update remove Routes.coerce_query].

Ltac answer_step :=
  match goal with
  | |- context [validate ?C ?i ?sch] => destruct (validate C i sch) as [? | ?] eqn:?
  | |- context [create ?C ?d ?s] => destruct (create C d s) as [[? | ?] ?] eqn:?
  | |- context [findAll ?C ?d ?s] => destruct (findAll C d s) as [[? | ?] ?] eqn:?
  | |- context [get ?C ?d ?s] => destruct (get C d s) as [[? | ?] ?] eqn:?
  | |- context [remove ?C ?d ?s] => destruct (remove C d s) as [[? | ?] ?] eqn:?
  | |- context [member ?v ?p] => destruct (member v p) as [? | ?] eqn:?
  | |- context [array_map ?f ?v] => destruct (array_map f v) as [? | ?] eqn:?
  | |- context [ToBoolean ?v] => destruct (ToBoolean v) eqn:?
  | |- context [ToNumber ?rt ?v] => destruct (ToNumber rt v) as [? | ?] eqn:?
  end.

Ltac answers := hold; repeat (answer_step; hold).

(** X1. Whatever the collaborators answer or throw, every handler makes its
    calls in one fixed order and calls the Job model at most once: GET /:id
    exactly one Job.get and DELETE /:id exactly one Job.remove, each with the
    id parameter as it is; PATCH /:id nothing; POST / the validation of the
    body, followed or not by one Job.create of that same body; GET / nothing
    when unary plus throws on [minSalary], and else the validation of the
    coerced query, followed or not by one Job.findAll of that same object. *)
Theorem handler_call_footprint {S : Type} (rt : runtime)
  (C : collaborators S) (r : request) (s : S) :
  trace (run C (invoke Routes.get_id r) s)
  = [Job_get (default VUndefined (params r !! "id"))]
  /\ trace (run C (invoke (Routes.delete_id rt) r) s)
     = [Job_remove (default VUndefined (params r !! "id"))]
  /\ trace (run C (invoke Routes.patch_id r) s) = []
  /\ (trace (run C (invoke Routes.post_root r) s)
      = [jsonschema_validate (body r) jobNewSchema]
      \/ trace (run C (invoke Routes.post_root r) s)
         = [jsonschema_validate (body r) jobNewSchema; Job_create (body r)])
  /\ match Routes.coerce_query rt (VObj (query r)) with
     | Throw _ => trace (run C (invoke (Routes.get_root rt) r) s) = []
     | Normal q' =>
         trace (run C (invoke (Routes.get_root rt) r) s)
         = [jsonschema_validate q' jobSearchSchema]
         \/ trace (run C (invoke (Routes.get_root rt) r) s)
            = [jsonschema_validate q' jobSearchSchema; Job_findAll q']
     end.
Proof.
  unfold trace, invoke. repeat split.
  - answers; reflexivity.
  - answers; reflexivity.
  - answers; auto.
  - hold. destruct (Routes.coerce_query rt (VObj (query r))) as [q' | e];
      [| reflexivity].
    answers; auto.
Qed.

(** X2. Whatever the collaborators answer or throw, the handlers of POST /,
    GET /:id and DELETE /:id end either by sending the one success status of
    their route (201 for POST /, 200 for the two others) or by calling [next]
    with an error: they never throw, never call [next()] without an error,
    and never send another status.  The handler of GET / does the same (with
    200) once its coercion has ended; when unary plus throws on [minSalary],
    outside the [try], it ends by throwing that error. *)
Theorem handlers_answer_success_or_forward {S : Type} (rt : runtime)
  (C : collaborators S) (r : request) (s : S) :
  success_or_forward 201 (answer (run C (invoke Routes.post_root r) s))
  /\ success_or_forward 200 (answer (run C (invoke Routes.get_id r) s))
  /\ success_or_forward 200 (answer (run C (invoke (Routes.delete_id rt) r) s))
  /\ match Routes.coerce_query rt (VObj (query r)) with
     | Normal _ =>
         success_or_forward 200 (answer (run C (invoke (Routes.get_root rt) r) s))
     | Throw e => answer (run C (invoke (Routes.get_root rt) r) s) = Throw e
     end.
Proof.
  unfold answer, invoke. repeat split.
  - answers; exact I || reflexivity.
  - answers; exact I || reflexivity.
  - answers; exact I || reflexivity.
  - hold. destruct (Routes.coerce_query rt (VObj (query r))) as [q' | e];
      [| reflexivity].
    answers; exact I || reflexivity.
Qed.

(** X3. POST /: Job.create is called exactly when the engine returned (did not
    throw) an object whose [valid] property is truthy; a throwing engine, an
    answer without [valid] or with a falsy one never reaches the Job model. *)
Theorem create_called_iff_valid {S : Type} (C : collaborators S) (r : request) (s : S) :
  In (Job_create (body r)) (trace (run C (invoke Routes.post_root r) s))
  <-> exists v x : value,
        validate C (body r) jobNewSchema = Normal v
        /\ member v "valid" = Normal x
        /\ ToBoolean x = true.
Proof.
  unfold trace, invoke. answers;
    (split;
     [ intros Hin; cbn in Hin;
       repeat (destruct Hin as [Hin | Hin]; try discriminate Hin);
       try contradiction; do 2 eexists; eauto
     | intros (v & x & Hv & Hm & Ht);
       first [ discriminate Hv
             | injection Hv as <-; first [ congruence | cbn; auto ] ] ]).
Qed.

(** X4. GET /jobs/:id, for any caller: Job.get is called once with the path
    segment as a string, and the response is 200 with body {job}, [job] being
    what Job.get returned; an error it throws goes to the error responder.
    The store is left as Job.get left it. *)
Theorem get_by_id_answers_with_the_job {S : Type} (rt : runtime)
  (C : collaborators S) (r : request) (s : S) (seg : string)
  (Hm : req_method r = GET) (Hp : req_path r = [seg]) :
  match get C (VStr seg) s with
  | (Normal job, s') =>
      serve rt C r s
      = (Express.Response 200 (VObj {[ "job" := job ]}), [Job_get (VStr seg)], s')
  | (Throw e, s') =>
      serve rt C r s = (Express.error_responder e, [Job_get (VStr seg)], s')
  end.
Proof.
  destruct r as [m p q b ps a]. cbn in Hm, Hp. subst m p.
  unfold serve. cbn -[get]. rewrite lookup_singleton_eq. cbn -[get].
  destruct (get C (VStr seg) s) as [[job | e] s']; reflexivity.
Qed.

(** GET /jobs/1 on the seed data, by a caller who is no admin. *)
Lemma get_by_id_answers_with_the_job_witness :
  serve digits_runtime jobly Requests.get_1 Sample.seed
  = (Express.Response 200
       (VObj {[ "job" := Job.detail (Sample.J 1 "J1" 1 (Some "0.1")) Sample.c1 ]}),
     [Job_get (VStr "1")], Sample.seed).
Proof.
  exact (get_by_id_answers_with_the_job digits_runtime jobly Requests.get_1
           Sample.seed "1" eq_refl eq_refl).
Defined.

(** X6. The coercion of GET / fails on a query object exactly when the
    query has a [minSalary] on which unary plus throws.  When it ends, it has
    added the key [hasEquity] and removed none; and it is not idempotent: a
    second pass over the coerced query ends too and yields [hasEquity: false]
    whatever the first pass yielded, because a boolean is not the string
    "true". *)
Theorem coerce_query_adds_hasEquity_and_is_not_idempotent
  (rt : runtime) (q : gmap string value) :
  match Routes.coerce_query rt (VObj q) with
  | Throw e =>
      exists m, q !! "minSalary" = Some m /\ m <> VUndefined /\ ToNumber rt m = Throw e
  | Normal v1 =>
      (forall m, q !! "minSalary" = Some m -> m <> VUndefined ->
         exists n, ToNumber rt m = Normal n)
      /\ exists q1 q2 : gmap string value,
           v1 = VObj q1
           /\ dom q1 = dom q ∪ {[ "hasEquity" ]}
           /\ Routes.coerce_query rt (VObj q1) = Normal (VObj q2)
           /\ q2 !! "hasEquity" = Some (VBool false)
  end.
Proof.
  rewrite coerce_query_obj. cbv zeta.
  assert (Hdom : forall (v : value) (m : gmap string value),
            dom m = dom q -> dom (<[ "hasEquity" := v ]> m) = dom q ∪ {[ "hasEquity" ]}).
  { intros v m Hm. rewrite dom_insert_L, (comm_L (∪)), Hm. reflexivity. }
  assert (Hsecond : forall (b : bool) (m : gmap string value),
            (m !! "minSalary" = None \/ m !! "minSalary" = Some VUndefined
             \/ exists n, m !! "minSalary" = Some (VNum n)) ->
            exists q2, Routes.coerce_query rt (VObj (<[ "hasEquity" := VBool b ]> m))
                       = Normal (VObj q2)
                       /\ q2 !! "hasEquity" = Some (VBool false)).
  { intros b m Hm. rewrite coerce_query_obj. cbv zeta.
    rewrite (lookup_insert_ne m "hasEquity" "minSalary") by discriminate.
    rewrite lookup_insert_eq. cbn [default from_option id strict_eq_str].
    destruct Hm as [-> | [-> | [n ->]]]; cbn [is_undefined ToNumber];
      eexists; (split; [reflexivity | apply lookup_insert_eq]). }
  set (b := strict_eq_str (default VUndefined (q !! "hasEquity")) "true").
  destruct (q !! "minSalary") as [m |] eqn:Hm.
  - destruct (is_undefined m) eqn:Hu.
    + split. { intros m' [= <-] Hne. destruct m; try discriminate Hu. congruence. }
      destruct m; try discriminate Hu.
      destruct (Hsecond b q) as (q2 & H2 & H2h); [right; left; exact Hm |].
      exists (<[ "hasEquity" := VBool b ]> q), q2.
      split; [reflexivity |]. split; [apply Hdom; reflexivity |].
      split; assumption.
    + destruct (ToNumber rt m) as [n | e] eqn:Hn.
      * split. { intros m' [= <-] _. exists n. exact Hn. }
        destruct (Hsecond b (<[ "minSalary" := VNum n ]> q)) as (q2 & H2 & H2h).
        { right; right. exists n. apply lookup_insert_eq. }
        exists (<[ "hasEquity" := VBool b ]> (<[ "minSalary" := VNum n ]> q)), q2.
        split; [reflexivity |]. split; [| split; assumption].
        apply Hdom. rewrite dom_insert_L.
        apply subseteq_union_1_L, singleton_subseteq_l. apply elem_of_dom. eauto.
      * exists m. split; [reflexivity |]. split; [| exact Hn].
        intros ->. discriminate Hu.
  - split; [discriminate |].
    destruct (Hsecond b q) as (q2 & H2 & H2h); [left; exact Hm |].
    exists (<[ "hasEquity" := VBool b ]> q), q2.
    split; [reflexivity |]. split; [apply Hdom; reflexivity |].
    split; assumption.
Qed.

(** X7. What a collaborator throws is handed to [next] as it is, not wrapped
    and not replaced, and the handler stops there: an error of Job.get in
    GET /:id, of Job.remove in DELETE /:id (no {deleted} is sent), of the
    engine in POST / (Job.create is not called), and of Job.create in POST /
    after a truthy [valid]. *)
Theorem collaborator_errors_are_forwarded_unchanged {S : Type}
  (rt : runtime) (C : collaborators S) (r : request) (s : S) :
  (forall e s',
     get C (default VUndefined (params r !! "id")) s = (Throw e, s') ->
     run C (invoke Routes.get_id r) s
     = (Normal (Forwarded e), [Job_get (default VUndefined (params r !! "id"))], s'))
  /\ (forall e s',
        remove C (default VUndefined (params r !! "id")) s = (Throw e, s') ->
        run C (invoke (Routes.delete_id rt) r) s
        = (Normal (Forwarded e),
           [Job_remove (default VUndefined (params r !! "id"))], s'))
  /\ (forall e,
        validate C (body r) jobNewSchema = Throw e ->
        run C (invoke Routes.post_root r) s
        = (Normal (Forwarded e), [jsonschema_validate (body r) jobNewSchema], s))
  /\ (forall v x e s',
        validate C (body r) jobNewSchema = Normal v ->
        member v "valid" = Normal x -> ToBoolean x = true ->
        create C (body r) s = (Throw e, s') ->
        run C (invoke Routes.post_root r) s
        = (Normal (Forwarded e),
           [jsonschema_validate (body r) jobNewSchema; Job_create (body r)], s')).
Proof.
  unfold invoke. repeat split.
  - intros e s' H. hold. rewrite H. reflexivity.
  - intros e s' H. hold. rewrite H. reflexivity.
  - intros e H. hold. rewrite H. reflexivity.
  - intros v x e s' Hv Hm Ht Hc. hold. rewrite Hv. hold. rewrite Hm. hold.
    rewrite Ht. hold. rewrite Hc. reflexivity.
Qed.

(** X8. GET /, once the coercion has ended with the object [q']: Job.findAll
    is called exactly when the engine returned an object whose [validate]
    property is truthy, and then with [q'].  A ValidatorResult has no such
    property, so for the answers of the jsonschema engine, with or without
    violations, the validation is the only call made. *)
Theorem findAll_called_iff_validate_property {S : Type} (rt : runtime)
  (C : collaborators S) (r : request) (s : S) (q' : value)
  (Hq : Routes.coerce_query rt (VObj (query r)) = Normal q') :
  (In (Job_findAll q') (trace (run C (invoke (Routes.get_root rt) r) s))
   <-> exists v x : value,
         validate C q' jobSearchSchema = Normal v
         /\ member v "validate" = Normal x
         /\ ToBoolean x = true)
  /\ (forall (inst : value) (errs : list value),
        validate C q' jobSearchSchema = Normal (Jsonschema.ValidatorResult inst errs) ->
        trace (run C (invoke (Routes.get_root rt) r) s)
        = [jsonschema_validate q' jobSearchSchema]).
Proof.
  unfold trace, invoke. split.
  - hold. rewrite Hq. answers;
      (split;
       [ intros Hin; cbn in Hin;
         repeat (destruct Hin as [Hin | Hin]; try discriminate Hin);
         try contradiction; do 2 eexists; eauto
       | intros (v & x & Hv & Hm & Ht);
         first [ discriminate Hv
               | injection Hv as <-; first [ congruence | cbn; auto ] ] ]).
  - intros inst errs Hv.
    cbn -[validate create findAll get update remove Routes.coerce_query
          member array_map Jsonschema.ValidatorResult].
    rewrite Hq.
    cbn -[validate create findAll get update remove Routes.coerce_query
          member array_map Jsonschema.ValidatorResult].
    rewrite Hv.
    cbn -[validate create findAll get update remove Routes.coerce_query
          member array_map Jsonschema.ValidatorResult].
    rewrite member_validate.
    cbn -[validate create findAll get update remove Routes.coerce_query
          member array_map Jsonschema.ValidatorResult].
    rewrite member_errors.
    destruct (array_map (fun e => member e "stack") (VArr errs)); reflexivity.
Qed.

(** GET /jobs on the seed data: the coercion ends with {hasEquity: false}, the
    engine answers with a ValidatorResult, and the validation is the only
    call. *)
Lemma findAll_called_iff_validate_property_witness :
  Routes.coerce_query digits_runtime (VObj (query Sample.list_all))
  = Normal (VObj {[ "hasEquity" := VBool false ]})
  /\ trace (run jobly (invoke (Routes.get_root digits_runtime) Sample.list_all) Sample.seed)
     = [jsonschema_validate (VObj {[ "hasEquity" := VBool false ]}) jobSearchSchema].
Proof.
  split; [reflexivity |].
  exact (proj2 (findAll_called_iff_validate_property digits_runtime jobly Sample.list_all
                  Sample.seed (VObj {[ "hasEquity" := VBool false ]}) eq_refl)
           (VObj {[ "hasEquity" := VBool false ]}) [] eq_refl).
Defined.

(** X9. Each handler reads one part of the request and nothing else: two
    requests with the same [id] parameter are treated alike by GET /:id and
    by DELETE /:id, two with the same body by POST /, two with the same query
    by GET /, whatever their other fields (method, path, body, query,
    authorization) are. *)
Theorem handlers_read_one_part_of_the_request {S : Type} (rt : runtime)
  (C : collaborators S) (r r' : request) (s : S) :
  (params r !! "id" = params r' !! "id" ->
     run C (invoke Routes.get_id r) s = run C (invoke Routes.get_id r') s
     /\ run C (invoke (Routes.delete_id rt) r) s
        = run C (invoke (Routes.delete_id rt) r') s)
  /\ (body r = body r' ->
        run C (invoke Routes.post_root r) s = run C (invoke Routes.post_root r') s)
  /\ (query r = query r' ->
        run C (invoke (Routes.get_root rt) r) s
        = run C (invoke (Routes.get_root rt) r') s).
Proof.
  unfold invoke. split; [| split]; intros H.
  - split; hold; rewrite H; reflexivity.
  - hold. rewrite H. reflexivity.
  - hold. rewrite H. reflexivity.
Qed.
